(** * A shallow embedding of the flight-route planner (самолеты.py)

    The planner searches the augmented state space city x remaining fuel
    with a best-first search.  Python floats are IEEE-754 binary64 numbers;
    they are modelled by [spec_float] with precision 53 and maximal exponent
    1024, Python integers by [Z], dictionaries by [gmap], and exceptions by
    an error monad. *)

From Stdlib Require Import ZArith Bool List Lia.
From Stdlib Require Import Floats.SpecFloat.
From stdpp Require Import base option gmap strings.

Import ListNotations.
Local Open Scope Z_scope.

(** ** Exceptions *)

Inductive pyexn : Type :=
  | ZeroDivisionError
  | TypeError
  | ValueError
  | OverflowError.

Inductive exc (A : Type) : Type :=
  | Ok (a : A)
  | Raise (e : pyexn).

Arguments Ok {A} a.
Arguments Raise {A} e.

#[export] Instance exc_ret : MRet exc := fun A a => Ok a.

#[export] Instance exc_bind : MBind exc := fun A B k m =>
  match m with
  | Ok a => k a
  | Raise e => Raise e
  end.

(** ** Python floats and the numeric built-ins the planner calls *)

Module PyFloat.

Definition float : Type := spec_float.

Definition prec : Z := 53.
Definition emax : Z := 1024.

Definition fadd : float -> float -> float := SFadd prec emax.
Definition fsub : float -> float -> float := SFsub prec emax.
Definition fmul : float -> float -> float := SFmul prec emax.
Definition feqb : float -> float -> bool := SFeqb.
Definition fltb : float -> float -> bool := SFltb.
Definition fleb : float -> float -> bool := SFleb.

Definition pinf : float := S754_infinity false.
Definition pzero : float := S754_zero false.

Definition is_zero (x : float) : bool :=
  match x with S754_zero _ => true | _ => false end.

Definition is_finite (x : float) : bool :=
  match x with S754_zero _ | S754_finite _ _ _ => true | _ => false end.

Definition is_inf (x : float) : bool :=
  match x with S754_infinity _ => true | _ => false end.

Definition is_nan (x : float) : bool :=
  match x with S754_nan => true | _ => false end.

(** The sign of a float that is zero, finite or infinite. *)
Definition sign_bit (x : float) : bool :=
  match x with
  | S754_zero s | S754_infinity s | S754_finite s _ _ => s
  | S754_nan => false
  end.

(** [float.__truediv__]: a zero divisor raises. *)
Definition fdiv (x y : float) : exc float :=
  if is_zero y then Raise ZeroDivisionError else Ok (SFdiv prec emax x y).

(** An integer as an unrounded significand with exponent 0. *)
Definition raw_of_Z (z : Z) : float :=
  match z with
  | Z0 => S754_zero false
  | Zpos p => S754_finite false p 0
  | Zneg p => S754_finite true p 0
  end.

(** [int.__float__]: round to nearest even, too large an integer raises. *)
Definition float_of_Z (z : Z) : exc float :=
  let r := binary_normalize prec emax z 0 false in
  if is_inf r then Raise OverflowError else Ok r.

(** [int.__truediv__]: the correctly rounded quotient of two integers. *)
Definition int_true_div (a b : Z) : exc float :=
  match b with
  | Z0 => Raise ZeroDivisionError
  | _ =>
      match a with
      | Z0 => Ok (S754_zero (b <? 0))
      | _ =>
          let r := SFdiv prec emax (raw_of_Z a) (raw_of_Z b) in
          if is_inf r then Raise OverflowError else Ok r
      end
  end.

(** A decimal literal [n / 10^k], read to the nearest float. *)
Definition literal (n : Z) (k : nat) : float :=
  match n with
  | Z0 => pzero
  | _ => SFdiv prec emax (raw_of_Z n) (raw_of_Z (10 ^ Z.of_nat k))
  end.

(** The signed significand of a finite float. *)
Definition signed (s : bool) (m : positive) : Z :=
  if s then Zneg m else Zpos m.

(** Exact value of a finite float as the fraction [fnum x / fden x],
    with a positive power of two as denominator. *)
Definition fnum (x : float) : Z :=
  match x with
  | S754_finite s m e =>
      match e with
      | Zneg _ => signed s m
      | _ => signed s m * 2 ^ e
      end
  | _ => 0
  end.

Definition fden (x : float) : Z :=
  match x with
  | S754_finite _ _ (Zneg k) => Zpos (2 ^ k)
  | _ => 1
  end.

(** [math.ceil] on a float: an integer; infinities and NaN raise. *)
Definition math_ceil (x : float) : exc Z :=
  match x with
  | S754_zero _ => Ok 0
  | S754_infinity _ => Raise OverflowError
  | S754_nan => Raise ValueError
  | S754_finite s m e =>
      match e with
      | Zneg k => Ok (- ((- signed s m) / Zpos (2 ^ k)))
      | _ => Ok (signed s m * 2 ^ e)
      end
  end.

(** [int(x)] on a float: truncation toward zero. *)
Definition int_of_float (x : float) : exc Z :=
  match x with
  | S754_zero _ => Ok 0
  | S754_infinity _ => Raise OverflowError
  | S754_nan => Raise ValueError
  | S754_finite s m e =>
      match e with
      | Zneg k => Ok (Z.quot (signed s m) (Zpos (2 ^ k)))
      | _ => Ok (signed s m * 2 ^ e)
      end
  end.

(** Nearest integer to [n / d] for [d > 0], ties to even. *)
Definition div_half_even (n d : Z) : Z :=
  let q := n / d in
  let r := n mod d in
  match 2 * r ?= d with
  | Lt => q
  | Gt => q + 1
  | Eq => if Z.even q then q else q + 1
  end.

(** [round(x)] on a float: nearest integer, ties to even. *)
Definition round0 (x : float) : exc Z :=
  match x with
  | S754_zero _ => Ok 0
  | S754_infinity _ => Raise OverflowError
  | S754_nan => Raise ValueError
  | S754_finite s m e =>
      match e with
      | Zneg k => Ok (div_half_even (signed s m) (Zpos (2 ^ k)))
      | _ => Ok (signed s m * 2 ^ e)
      end
  end.

(** [round(x, 2)] on a float: the float nearest to the two-decimal
    rounding of the exact value of [x]; zeros keep the sign of [x]. *)
Definition round2 (x : float) : float :=
  match x with
  | S754_finite s m e =>
      let n :=
        match e with
        | Zneg k => div_half_even (signed s m * 100) (Zpos (2 ^ k))
        | _ => signed s m * 100 * 2 ^ e
        end in
      match n with
      | Z0 => S754_zero s
      | _ => SFdiv prec emax (raw_of_Z n) (raw_of_Z 100)
      end
  | _ => x
  end.

(** Exact three-way comparison of a float with an integer
    ([None] for NaN), as [float.__gt__] does against an [int]. *)
Definition compare_Z (x : float) (z : Z) : option comparison :=
  match x with
  | S754_nan => None
  | S754_infinity s => Some (if s then Lt else Gt)
  | S754_zero _ => Some (0 ?= z)
  | S754_finite s m e =>
      match e with
      | Zneg k => Some (signed s m ?= z * Zpos (2 ^ k))
      | _ => Some (signed s m * 2 ^ e ?= z)
      end
  end.

Definition gt_Z (x : float) (z : Z) : bool :=
  match compare_Z x z with Some Gt => true | _ => false end.

(** [math.sqrt]: negative arguments are a domain error. *)
Definition math_sqrt (x : float) : exc float :=
  match x with
  | S754_finite true _ _ | S754_infinity true => Raise ValueError
  | _ => Ok (SFsqrt prec emax x)
  end.

(** [math.radians]: multiplication by the constant pi / 180. *)
Definition pi : float := S754_finite false 884279719003555 (-48).
Definition deg_to_rad : float := SFdiv prec emax pi (raw_of_Z 180).
Definition math_radians (x : float) : float := fmul x deg_to_rad.

End PyFloat.

Import PyFloat.

(** ** Data model *)

Record City : Type := mkCity {
  name : string;
  lat : float;
  lon : float;
  has_fuel : bool
}.

(** [City.__eq__] compares names only. *)
Definition city_eqb (a b : City) : bool := String.eqb (name a) (name b).

(** The distance is a float, as annotated; an integer distance such as
    those of [create_test_graph] behaves as the float it converts to. *)
Record Edge : Type := mkEdge {
  city1 : City;
  city2 : City;
  distance_km : float;
  headwind : bool;
  fairwind : bool;
  closed : bool
}.

(** [Edge.get_other_city] *)
Definition get_other_city (e : Edge) (city : City) : exc City :=
  if city_eqb city (city1 e) then Ok (city2 e)
  else if city_eqb city (city2 e) then Ok (city1 e)
  else Raise ValueError.

Record Plane : Type := mkPlane {
  tank_capacity : Z;
  fuel_consumption : float;
  cruise_speed : Z
}.

Record Graph : Type := mkGraph {
  cities : gmap string City;
  edges : list Edge
}.

Definition empty_graph : Graph := mkGraph ∅ [].

(** [Graph.add_city]: the last write on a name wins. *)
Definition add_city (g : Graph) (c : City) : Graph :=
  mkGraph (<[name c := c]> (cities g)) (edges g).

(** [Graph.add_edge] *)
Definition add_edge (g : Graph) (e : Edge) : Graph :=
  mkGraph (cities g) (edges g ++ [e]).

(** [Graph.get_edges_from_city]: a linear scan in declaration order. *)
Definition get_edges_from_city (g : Graph) (city : City) : list Edge :=
  List.filter (fun e => city_eqb (city1 e) city || city_eqb (city2 e) city) (edges g).

(** The result dictionary of a search. *)
Inductive result : Type :=
  | Itinerary (route : list string) (total_time : float)
      (refuel_stops : list string) (total_distance : Z) (refuel_count : Z)
  | Error (msg : string).

(** ** The platform's mathematical functions

    [math.sin], [math.cos], [math.atan2] and [float.__pow__] are computed
    by the C library; the planner is parametric in them. *)

Record pymath : Type := mkPymath {
  math_sin : float -> exc float;
  math_cos : float -> exc float;
  math_atan2 : float -> float -> exc float;
  float_pow : float -> Z -> exc float
}.

(** ** Edge cost evaluator *)

Definition f0_80 : float := literal 80 2.
Definition f1_20 : float := literal 120 2.
Definition f1_10 : float := literal 110 2.
Definition f0_90 : float := literal 90 2.
Definition f1_00 : float := literal 100 2.
Definition f0_5 : float := literal 5 1.
Definition f10 : float := literal 10 0.
Definition f2 : float := literal 2 0.
Definition f1 : float := literal 1 0.

(** The wind multipliers (speed, consumption) of an edge. *)
Definition wind_multipliers (e : Edge) : float * float :=
  if headwind e then (f0_80, f1_20)
  else if fairwind e then (f1_10, f0_90)
  else (f1_00, f1_00).

(** [RoutePlanner.calculate_edge_time_and_fuel] *)
Definition calculate_edge_time_and_fuel (pl : Plane) (e : Edge) (current_fuel : Z)
  : exc (float * Z) :=
  if closed e then Ok (pinf, 0)
  else
    let '(speed_multiplier, fuel_multiplier) := wind_multipliers e in
    cs ← float_of_Z (cruise_speed pl);
    let effective_speed := fmul cs speed_multiplier in
    let effective_consumption := fmul (fuel_consumption pl) fuel_multiplier in
    time_hours ← fdiv (distance_km e) effective_speed;
    let fuel_needed := fmul (distance_km e) effective_consumption in
    if gt_Z fuel_needed current_fuel then Ok (pinf, 0)
    else
      tenths ← math_ceil (fmul time_hours f10);
      time_hours ← int_true_div tenths 10;
      fuel ← int_of_float fuel_needed;
      Ok (time_hours, fuel).

(** ** The frontier: [heapq] over tuples

    A frontier entry is the tuple
    [(f_score, g_score, city, fuel, path, refuel_count)].  The heap is the
    array-based binary heap of Python's standard library, which orders the
    tuples with [<]. *)

Record entry : Type := mkEntry {
  e_f : float;
  e_g : float;
  e_city : City;
  e_fuel : Z;
  e_path : list City;
  e_refuels : Z
}.

(** [list.__eq__] on paths: element-wise [City.__eq__]. *)
Fixpoint path_eqb (p q : list City) : bool :=
  match p, q with
  | [], [] => true
  | a :: p', b :: q' => city_eqb a b && path_eqb p' q'
  | _, _ => false
  end.

(** [list.__lt__] on paths: the first differing pair of cities is compared
    with [<], which [City] does not define; a proper prefix is smaller. *)
Fixpoint path_lt (p q : list City) : exc bool :=
  match p, q with
  | [], [] => Ok false
  | [], _ :: _ => Ok true
  | _ :: _, [] => Ok false
  | a :: p', b :: q' => if city_eqb a b then path_lt p' q' else Raise TypeError
  end.

(** [tuple.__lt__]: the first position where the tuples differ (by [==])
    decides, by [<] on the items at that position. *)
Definition entry_lt (x y : entry) : exc bool :=
  if negb (feqb (e_f x) (e_f y)) then Ok (fltb (e_f x) (e_f y))
  else if negb (feqb (e_g x) (e_g y)) then Ok (fltb (e_g x) (e_g y))
  else if negb (city_eqb (e_city x) (e_city y)) then Raise TypeError
  else if negb (e_fuel x =? e_fuel y) then Ok (e_fuel x <? e_fuel y)
  else if negb (path_eqb (e_path x) (e_path y)) then path_lt (e_path x) (e_path y)
  else Ok (e_refuels x <? e_refuels y).

Module heapq.

(** [_siftdown(heap, startpos, pos)], with [newitem] already read;
    [n] bounds the iterations and [pos] is always enough. *)
Fixpoint siftdown (n : nat) (heap : list entry) (startpos pos : nat)
    (newitem : entry) : exc (list entry) :=
  match n with
  | O => Ok (<[pos := newitem]> heap)
  | S n' =>
      if (startpos <? pos)%nat then
        let parentpos := ((pos - 1) / 2)%nat in
        match heap !! parentpos with
        | Some parent =>
            b ← entry_lt newitem parent;
            if b : bool then
              siftdown n' (<[pos := parent]> heap) startpos parentpos newitem
            else Ok (<[pos := newitem]> heap)
        | None => Ok (<[pos := newitem]> heap)
        end
      else Ok (<[pos := newitem]> heap)
  end.

(** [heappush(heap, item)] *)
Definition heappush (heap : list entry) (item : entry) : exc (list entry) :=
  siftdown (length heap) (heap ++ [item]) 0 (length heap) item.

(** The loop of [_siftup(heap, pos)]: the smaller child is moved up until
    a leaf is reached; returns the heap and the final position. *)
Fixpoint siftup_loop (n : nat) (heap : list entry) (pos : nat)
    : exc (list entry * nat) :=
  match n with
  | O => Ok (heap, pos)
  | S n' =>
      let endpos := length heap in
      let childpos := (2 * pos + 1)%nat in
      if (childpos <? endpos)%nat then
        let rightpos := (childpos + 1)%nat in
        childpos ←
          match heap !! childpos, heap !! rightpos with
          | Some l, Some r =>
              b ← entry_lt l r;
              Ok (if b : bool then childpos else rightpos)
          | _, _ => Ok childpos
          end;
        match heap !! childpos with
        | Some c => siftup_loop n' (<[pos := c]> heap) childpos
        | None => Ok (heap, pos)
        end
      else Ok (heap, pos)
  end.

(** [_siftup(heap, pos)] *)
Definition siftup (heap : list entry) (pos : nat) : exc (list entry) :=
  match heap !! pos with
  | Some newitem =>
      '(heap, pos') ← siftup_loop (length heap) heap pos;
      siftdown pos' (<[pos' := newitem]> heap) pos pos' newitem
  | None => Ok heap
  end.

(** [heappop(heap)] on a non-empty heap: the smallest entry and the
    remaining heap; [None] on the empty heap. *)
Definition heappop (heap : list entry) : option (exc (entry * list entry)) :=
  match last heap with
  | None => None
  | Some lastelt =>
      match removelast heap with
      | [] => Some (Ok (lastelt, []))
      | returnitem :: rest =>
          Some (heap' ← siftup (lastelt :: rest) 0; Ok (returnitem, heap'))
      end
  end.

End heapq.

(** ** Route planner *)

Section RoutePlanner.

Variable M : pymath.
Variable graph : Graph.
Variable plane : Plane.

Definition R_earth : float := literal 6371 0.

(** [RoutePlanner.haversine_distance] *)
Definition haversine_distance (c1 c2 : City) : exc Z :=
  let lat1_rad := math_radians (lat c1) in
  let lon1_rad := math_radians (lon c1) in
  let lat2_rad := math_radians (lat c2) in
  let lon2_rad := math_radians (lon c2) in
  let dlat := fsub lat2_rad lat1_rad in
  let dlon := fsub lon2_rad lon1_rad in
  half_dlat ← fdiv dlat f2;
  s1 ← math_sin M half_dlat;
  p1 ← float_pow M s1 2;
  k1 ← math_cos M lat1_rad;
  k2 ← math_cos M lat2_rad;
  half_dlon ← fdiv dlon f2;
  s2 ← math_sin M half_dlon;
  p2 ← float_pow M s2 2;
  let a := fadd p1 (fmul (fmul k1 k2) p2) in
  r1 ← math_sqrt a;
  r2 ← math_sqrt (fsub f1 a);
  t ← math_atan2 M r1 r2;
  let c := fmul f2 t in
  let distance := fmul R_earth c in
  math_ceil distance.

(** The heuristic of lines 120 and 159: the great-circle distance over
    the baseline cruise speed. *)
Definition h_score (city target_city : City) : exc float :=
  d ← haversine_distance city target_city;
  int_true_div d (cruise_speed plane).

(** The first connection between two cities, in declaration order. *)
Fixpoint first_edge_distance (es : list Edge) (a b : City) : option float :=
  match es with
  | [] => None
  | e :: es' =>
      if (city_eqb (city1 e) a && city_eqb (city2 e) b)
         || (city_eqb (city1 e) b && city_eqb (city2 e) a)
      then Some (distance_km e)
      else first_edge_distance es' a b
  end.

(** The first loop of [_build_result]: walk consecutive pairs of the path. *)
Fixpoint walk_distance (total : float) (path : list City) : float :=
  match path with
  | a :: (b :: _) as rest =>
      match first_edge_distance (edges graph) a b with
      | Some d => walk_distance (fadd total d) rest
      | None => walk_distance total rest
      end
  | _ => total
  end.

(** [RoutePlanner._build_result]; the integer [0] the total starts from
    is the float [+0.0] as soon as a distance is added to it. *)
Definition _build_result (path : list City) (total_time : float) (refuel_count : Z)
  : exc result :=
  let total_distance := walk_distance pzero path in
  let refuel_cities :=
    List.map name (List.filter has_fuel (removelast path)) in
  rounded ← round0 total_distance;
  Ok (Itinerary (List.map name path) (round2 total_time) refuel_cities
        rounded refuel_count).

(** The state of the [while] loop. *)
Record search_state : Type := mkState {
  open_set : list entry;
  visited : gmap (string * Z) float
}.

(** Lines 143-151: the fuel, elapsed time and refuel counter on arrival
    at [next_city], with the mandatory refuel. *)
Definition arrive (cur : entry) (next_city : City) (time_needed : float)
    (fuel_consumed : Z) : float * Z * Z :=
  let new_fuel := e_fuel cur - fuel_consumed in
  let new_g := fadd (e_g cur) time_needed in
  let new_refuel_count := e_refuels cur in
  if has_fuel next_city && (new_fuel <? tank_capacity plane) then
    (fadd new_g f0_5, tank_capacity plane, new_refuel_count + 1)
  else (new_g, new_fuel, new_refuel_count).

(** The visited-state filter of lines 153-155. *)
Definition seen (visited : gmap (string * Z) float) (key : string * Z)
    (new_g : float) : bool :=
  match visited !! key with
  | Some best => fleb best new_g
  | None => false
  end.

(** One iteration of the [for edge in ...] loop of [a_star_search]. *)
Definition relax (target_city : City) (cur : entry) (st : search_state) (edge : Edge)
  : exc search_state :=
  next_city ← get_other_city edge (e_city cur);
  '(time_needed, fuel_consumed) ←
    calculate_edge_time_and_fuel plane edge (e_fuel cur);
  if feqb time_needed pinf then Ok st
  else
    let '(new_g, new_fuel, new_refuel_count) :=
      arrive cur next_city time_needed fuel_consumed in
    let visited_key := (name next_city, new_fuel) in
    if seen (visited st) visited_key new_g then Ok st
    else
      let visited' := <[visited_key := new_g]> (visited st) in
      h ← h_score next_city target_city;
      let f_score := fadd new_g h in
      let new_path := e_path cur ++ [next_city] in
      open' ← heapq.heappush (open_set st)
                (mkEntry f_score new_g next_city new_fuel new_path new_refuel_count);
      Ok (mkState open' visited').

(** The [for] loop over the edges of the current city. *)
Fixpoint relax_all (target_city : City) (cur : entry) (st : search_state)
    (es : list Edge) : exc search_state :=
  match es with
  | [] => Ok st
  | e :: es' =>
      st' ← relax target_city cur st e;
      relax_all target_city cur st' es'
  end.

(** One iteration of the [while open_set] loop: either the search
    returns, or it continues in a new state. *)
Definition a_star_step (target_city : City) (st : search_state)
  : exc (search_state + result) :=
  match heapq.heappop (open_set st) with
  | None => Ok (inr (Error "No path found"))
  | Some popped =>
      '(cur, rest) ← popped;
      if city_eqb (e_city cur) target_city then
        r ← _build_result (e_path cur) (e_g cur) (e_refuels cur);
        Ok (inr r)
      else
        st' ← relax_all target_city cur (mkState rest (visited st))
                (get_edges_from_city graph (e_city cur));
        Ok (inl st')
  end.

(** The [while] loop, for at most [n] iterations; [None] when the loop
    is still running after that many. *)
Fixpoint a_star_loop (n : nat) (target_city : City) (st : search_state)
  : option (exc result) :=
  match n with
  | O => None
  | S n' =>
      match a_star_step target_city st with
      | Raise e => Some (Raise e)
      | Ok (inr r) => Some (Ok r)
      | Ok (inl st') => a_star_loop n' target_city st'
      end
  end.

(** The state the loop starts from. *)
Definition initial_state (start_city target_city : City) : exc search_state :=
  let initial_fuel := tank_capacity plane in
  let g_score := pzero in
  h ← h_score start_city target_city;
  let f_score := fadd g_score h in
  Ok (mkState [mkEntry f_score g_score start_city initial_fuel [start_city] 0]
        {[ (name start_city, initial_fuel) := g_score ]}).

(** [RoutePlanner.a_star_search] *)
Definition a_star_search (n : nat) (start_city_name target_city_name : string)
  : option (exc result) :=
  match cities graph !! start_city_name, cities graph !! target_city_name with
  | Some start_city, Some target_city =>
      match initial_state start_city target_city with
      | Raise e => Some (Raise e)
      | Ok st => a_star_loop n target_city st
      end
  | _, _ => Some (Ok (Error "City not found"))
  end.

End RoutePlanner.

(** ** The demonstration topology of [create_test_graph] and [main] *)

Module Demo.

Definition moscow := mkCity "Moscow" (literal 557558 4) (literal 376173 4) true.
Definition spb := mkCity "St Petersburg" (literal 599343 4) (literal 303351 4) true.
Definition kazan := mkCity "Kazan" (literal 558304 4) (literal 490661 4) true.
Definition sochi := mkCity "Sochi" (literal 435855 4) (literal 397231 4) false.
Definition samara := mkCity "Samara" (literal 531959 4) (literal 501002 4) true.

Definition km (n : Z) : float := literal n 0.

(** [create_test_graph] *)
Definition create_test_graph : Graph :=
  let graph := empty_graph in
  let graph := add_city graph moscow in
  let graph := add_city graph spb in
  let graph := add_city graph kazan in
  let graph := add_city graph sochi in
  let graph := add_city graph samara in
  let graph := add_edge graph (mkEdge moscow spb (km 650) false true false) in
  let graph := add_edge graph (mkEdge moscow kazan (km 720) false false false) in
  let graph := add_edge graph (mkEdge moscow sochi (km 1360) true false false) in
  let graph := add_edge graph (mkEdge kazan samara (km 450) false false false) in
  let graph := add_edge graph (mkEdge spb kazan (km 1150) false false true) in
  let graph := add_edge graph (mkEdge samara sochi (km 1250) false false false) in
  graph.

(** The aircraft of [main]. *)
Definition plane : Plane := mkPlane 16000 (literal 27 1) 841.

(** Values of the C library's [sin], [cos] and [atan2] at the arguments
    that the distances from Moscow, St Petersburg, Kazan and Sochi to
    Sochi reach (binary64, glibc). *)
Definition sin_table : list (float * float) :=
  [(S754_finite true 7652941841201040 (-56),
    S754_finite true 7638562813007843 (-56));
   (S754_finite false 5296686171812096 (-58),
    S754_finite false 5296388063116031 (-58));
   (S754_finite true 5140235473793892 (-55),
    S754_finite true 5122815148489634 (-55));
   (S754_finite false 5903372801426044 (-56),
    S754_finite false 5896771278761215 (-56));
   (S754_finite true 7699851897761156 (-56),
    S754_finite true 7685206930672725 (-56));
   (S754_finite true 5875075850417928 (-56),
    S754_finite true 5868568782850669 (-56));
   (S754_zero false,
    S754_zero false)].

Definition cos_table : list (float * float) :=
  [(S754_finite false 8765106338989940 (-53),
    S754_finite false 5068542422528146 (-53));
   (S754_finite false 6851870878689680 (-53),
    S754_finite false 6524332013368481 (-53));
   (S754_finite false 4710994307793313 (-52),
    S754_finite false 4512541310192769 (-53));
   (S754_finite false 8776833853129969 (-53),
    S754_finite false 5058843617994152 (-53))].

Definition atan2_table : list (float * float * float) :=
  [((S754_finite false 7685198013430957 (-56), S754_finite false 8955824388028497 (-53)),
    S754_finite false 7699842929365790 (-56));
   ((S754_finite false 5421978367971358 (-55), S754_finite false 8904620869283815 (-53)),
    S754_finite false 5442655303158404 (-55));
   ((S754_finite false 8548304124714556 (-56), S754_finite false 8943593512892182 (-53)),
    S754_finite false 8568482861802777 (-56));
   ((S754_zero false, S754_finite false 4503599627370496 (-52)),
    S754_zero false)].

Definition float_eqb (x y : float) : bool :=
  match x, y with
  | S754_zero s, S754_zero t | S754_infinity s, S754_infinity t => Bool.eqb s t
  | S754_nan, S754_nan => true
  | S754_finite s m e, S754_finite t n k => Bool.eqb s t && (m =? n)%positive && (e =? k)
  | _, _ => false
  end.

Definition recorded (tbl : list (float * float)) (x : float) : exc float :=
  match List.find (fun kv => float_eqb (fst kv) x) tbl with
  | Some kv => Ok (snd kv)
  | None => Raise ValueError
  end.

Definition recorded2 (tbl : list (float * float * float)) (y x : float) : exc float :=
  match List.find (fun kv => float_eqb (fst (fst kv)) y && float_eqb (snd (fst kv)) x) tbl with
  | Some kv => Ok (snd kv)
  | None => Raise ValueError
  end.

(** The platform restricted to the recorded arguments; squaring is the
    correctly rounded product. *)
Definition libm : pymath :=
  mkPymath (recorded sin_table) (recorded cos_table) (recorded2 atan2_table)
    (fun x n => if n =? 2 then Ok (fmul x x) else Raise ValueError).

End Demo.

(** * Notions of the specification and test inputs *)

(** The loop states of a search from [start_city] to [target_city]. *)
Inductive reachable (M : pymath) (graph : Graph) (plane : Plane)
    (start_city target_city : City) : search_state -> Prop :=
  | reach_init st :
      initial_state M plane start_city target_city = Ok st ->
      reachable M graph plane start_city target_city st
  | reach_step st st' :
      reachable M graph plane start_city target_city st ->
      a_star_step M graph plane target_city st = Ok (inl st') ->
      reachable M graph plane start_city target_city st'.

(** Line 102: the fuel the edge needs, before truncation. *)
Definition fuel_needed (pl : Plane) (e : Edge) : float :=
  fmul (distance_km e) (fmul (fuel_consumption pl) (snd (wind_multipliers e))).

(** Line 98: the speed on the edge. *)
Definition effective_speed (cs : float) (e : Edge) : float :=
  fmul cs (fst (wind_multipliers e)).

(** Python's [0.0 <= x]. *)
Definition fnonneg (x : float) : bool := fleb pzero x.

(** The value of a computation that does not raise. *)
Definition ok_or {A : Type} (d : A) (m : exc A) : A :=
  match m with Ok a => a | Raise _ => d end.

(** The demonstration search from Moscow to Sochi: the state the loop
    starts from, and the state after the expansion of Moscow. *)
Definition demo_state0 : search_state :=
  ok_or (mkState [] ∅)
    (initial_state Demo.libm Demo.plane Demo.moscow Demo.sochi).

Definition demo_state1 : search_state :=
  match a_star_step Demo.libm Demo.create_test_graph Demo.plane Demo.sochi demo_state0 with
  | Ok (inl st) => st
  | _ => mkState [] ∅
  end.

(** The haversine formula on a sphere of radius 6371 km, in the words of
    the specification: with [a = sin^2(dlat/2) + cos lat1 * cos lat2 *
    sin^2(dlon/2)] and [c = 2 * atan2(sqrt a, sqrt (1 - a))], the distance
    is [R * c]. *)
Inductive haversine_formula (M : pymath) (c1 c2 : City) : float -> Prop :=
  | haversine_intro sin_dlat sin_dlon sq_dlat sq_dlon cos1 cos2 root coroot angle :
      let dlat := fsub (math_radians (lat c2)) (math_radians (lat c1)) in
      let dlon := fsub (math_radians (lon c2)) (math_radians (lon c1)) in
      let a := fadd sq_dlat (fmul (fmul cos1 cos2) sq_dlon) in
      math_sin M (SFdiv prec emax dlat f2) = Ok sin_dlat ->
      float_pow M sin_dlat 2 = Ok sq_dlat ->
      math_cos M (math_radians (lat c1)) = Ok cos1 ->
      math_cos M (math_radians (lat c2)) = Ok cos2 ->
      math_sin M (SFdiv prec emax dlon f2) = Ok sin_dlon ->
      float_pow M sin_dlon 2 = Ok sq_dlon ->
      math_sqrt a = Ok root ->
      math_sqrt (fsub f1 a) = Ok coroot ->
      math_atan2 M root coroot = Ok angle ->
      haversine_formula M c1 c2 (fmul R_earth (fmul f2 angle)).

(** The same edge with the fairwind flag cleared. *)
Definition without_fairwind (e : Edge) : Edge :=
  mkEdge (city1 e) (city2 e) (distance_km e) (headwind e) false (closed e).

(** The direct connection of the demonstration, flagged with both winds. *)
Definition both_winds : Edge :=
  mkEdge Demo.moscow Demo.sochi (Demo.km 1360) true true false.

(** An aircraft that does not move, and one that flies backwards. *)
Definition grounded : Plane := mkPlane 16000 (literal 27 1) 0.

Definition backwards : Plane := mkPlane 16000 (literal 27 1) (-841).

(** The connection Moscow-Kazan of the demonstration. *)
Definition moscow_kazan : Edge :=
  mkEdge Demo.moscow Demo.kazan (Demo.km 720) false false false.

(** Whether a connection joins two cities, in either direction. *)
Definition connects (a b : City) (e : Edge) : bool :=
  (city_eqb (city1 e) a && city_eqb (city2 e) b)
  || (city_eqb (city1 e) b && city_eqb (city2 e) a).

(** The consecutive pairs of a path. *)
Definition legs (path : list City) : list (City * City) :=
  zip path (tail path).

(** The total distance in the words of the specification: over the
    consecutive pairs of the path, the sum of the distance of the first
    matching connection in declaration order. *)
Definition total_distance_spec (graph : Graph) (path : list City) : float :=
  fold_left
    (fun total leg =>
       match List.find (connects (fst leg) (snd leg)) (edges graph) with
       | Some e => fadd total (distance_km e)
       | None => total
       end)
    (legs path) pzero.

(** The refuel stops in the words of the specification: every city of the
    path but the last whose fuel flag is set. *)
Definition refuel_stops_spec (path : list City) : list string :=
  List.map name (List.filter has_fuel (take (length path - 1) path)).

(** [runs k st st']: the loop goes from [st] to [st'] in [k] iterations. *)
Inductive runs (M : pymath) (graph : Graph) (plane : Plane) (target_city : City)
    : nat -> search_state -> search_state -> Prop :=
  | runs_O st : runs M graph plane target_city 0 st st
  | runs_S k st st' st'' :
      a_star_step M graph plane target_city st = Ok (inl st') ->
      runs M graph plane target_city k st' st'' ->
      runs M graph plane target_city (S k) st st''.

(** Moscow and Sochi joined by a single closed connection, and an aircraft
    whose tank is too small for the open connection. *)
Definition closed_graph : Graph :=
  add_edge (add_city (add_city empty_graph Demo.moscow) Demo.sochi)
    (mkEdge Demo.moscow Demo.sochi (Demo.km 1360) true false true).

Definition open_graph : Graph :=
  add_edge (add_city (add_city empty_graph Demo.moscow) Demo.sochi)
    (mkEdge Demo.moscow Demo.sochi (Demo.km 1360) true false false).

Definition small_tank : Plane := mkPlane 1000 (literal 27 1) 841.

(** A second city at the coordinates of Kazan, and a topology in which
    Moscow reaches both over connections of the same length. *)
Definition kazan_airport : City :=
  mkCity "Kazan Airport" (lat Demo.kazan) (lon Demo.kazan) true.

Definition tie_graph : Graph :=
  let graph := empty_graph in
  let graph := add_city graph Demo.moscow in
  let graph := add_city graph Demo.kazan in
  let graph := add_city graph kazan_airport in
  let graph := add_city graph Demo.sochi in
  let graph := add_edge graph (mkEdge Demo.moscow Demo.kazan (Demo.km 720) false false false) in
  let graph := add_edge graph (mkEdge Demo.moscow kazan_airport (Demo.km 720) false false false) in
  graph.

(** Whether the heuristic of a neighbour at [d] km from the target, added
    to an elapsed time of 1.3 or of 1.4 hours, exceeds the 2.1 hours of the
    direct flight. *)
Definition beyond_direct (d : Z) : bool :=
  match int_true_div d 841 with
  | Ok h => fltb (literal 21 1) (fadd (literal 13 1) h)
            && fltb (literal 21 1) (fadd (literal 14 1) h)
  | Raise _ => false
  end.





(** The same edge with the headwind flag cleared. *)
Definition without_headwind (e : Edge) : Edge :=
  mkEdge (city1 e) (city2 e) (distance_km e) false (fairwind e) (closed e).

(** * Further notions *)

(** Whether a connection has the city as one of its endpoints. *)
Definition touches (c : City) (e : Edge) : bool :=
  city_eqb (city1 e) c || city_eqb (city2 e) c.

(** The topology with the same connections and only two cities declared. *)
Definition only_cities (g : Graph) (a b : City) : Graph :=
  mkGraph {[ name a := a; name b := b ]} (edges g).

(** A leg of a path that an open connection of the topology joins. *)
Definition flown (g : Graph) (leg : City * City) : Prop :=
  exists e, In e (edges g) /\ closed e = false
            /\ connects (fst leg) (snd leg) e = true.

(** The path of a frontier entry is a walk from the start to the entry's
    city over open connections. *)
Definition is_walk (g : Graph) (start_city : City) (x : entry) : Prop :=
  hd_error (e_path x) = Some start_city
  /\ last (e_path x) = Some (e_city x)
  /\ Forall (flown g) (legs (e_path x)).

(** The refuel counter of a frontier entry counts arrivals at cities with
    fuel: it is at most the number of such cities after the first one. *)
Definition refuels_bounded (x : entry) : Prop :=
  e_path x <> []
  /\ 0 <= e_refuels x
       <= Z.of_nat (length (List.filter has_fuel (tail (e_path x)))).

(** Sochi with a fuel depot, and the topology of the direct connection. *)
Definition sochi_depot : City :=
  mkCity "Sochi" (lat Demo.sochi) (lon Demo.sochi) true.

Definition depot_graph : Graph :=
  add_edge (add_city (add_city empty_graph Demo.moscow) sochi_depot)
    (mkEdge Demo.moscow sochi_depot (Demo.km 1360) true false false).

(** The elapsed time and the priority of a frontier entry are numbers. *)
Definition times_are_numbers (x : entry) : Prop :=
  is_nan (e_g x) = false /\ is_nan (e_f x) = false.

(** Two cities on opposite sides of the globe, at 8 N 0 E and 8 S 180 E,
    with the values of the C library's [sin] and [cos] at the arguments the
    distance between them reaches (binary64, glibc). *)
Module Antipodes.

Definition north : City := mkCity "North" (literal 8 0) (literal 0 0) true.
Definition south : City := mkCity "South" (literal (-8) 0) (literal 180 0) true.

Definition sin_table : list (float * float) :=
  [(S754_finite true 5030569068109113 (-55),
    S754_finite true 5014239404989977 (-55));
   (S754_finite false 7074237752028440 (-52),
    S754_finite false 4503599627370496 (-52))].

Definition cos_table : list (float * float) :=
  [(S754_finite false 5030569068109113 (-55),
    S754_finite false 8919541810762874 (-53));
   (S754_finite true 5030569068109113 (-55),
    S754_finite false 8919541810762874 (-53))].

Definition libm : pymath :=
  mkPymath (Demo.recorded sin_table) (Demo.recorded cos_table)
    (fun _ _ => Raise TypeError)
    (fun x n => if n =? 2 then Ok (fmul x x) else Raise ValueError).

Definition graph : Graph :=
  add_edge (add_city (add_city empty_graph north) south)
    (mkEdge north south (Demo.km 20015) false false false).

End Antipodes.

(** The state of a frontier entry is a key of the visited map, with a time
    that is not later than the entry's own. *)
Definition recorded_no_later (visited : gmap (string * Z) float) (x : entry) : Prop :=
  exists best, visited !! (name (e_city x), e_fuel x) = Some best
               /\ fleb best (e_g x) = true.

(** The demonstration topology with every connection of Moscow closed. *)
Definition moscow_closed : Graph :=
  let graph := empty_graph in
  let graph := add_city graph Demo.moscow in
  let graph := add_city graph Demo.spb in
  let graph := add_city graph Demo.kazan in
  let graph := add_city graph Demo.sochi in
  let graph := add_city graph Demo.samara in
  let graph := add_edge graph (mkEdge Demo.moscow Demo.spb (Demo.km 650) false true true) in
  let graph := add_edge graph (mkEdge Demo.moscow Demo.kazan (Demo.km 720) false false true) in
  let graph := add_edge graph (mkEdge Demo.moscow Demo.sochi (Demo.km 1360) true false true) in
  let graph := add_edge graph (mkEdge Demo.kazan Demo.samara (Demo.km 450) false false false) in
  let graph := add_edge graph (mkEdge Demo.spb Demo.kazan (Demo.km 1150) false false true) in
  let graph := add_edge graph (mkEdge Demo.samara Demo.sochi (Demo.km 1250) false false false) in
  graph.

(** * Properties *)

(** ** Reasoning in the error monad *)

Lemma bind_Ok {A B : Type} (m : exc A) (k : A -> exc B) (b : B) :
  m ≫= k = Ok b -> exists a, m = Ok a /\ k a = Ok b.
Proof. destruct m as [a|e]; simpl; [eauto|discriminate]. Qed.

Ltac inv_bind H :=
  let a := fresh "a" in
  let Ha := fresh "Ha" in
  apply bind_Ok in H as (a & Ha & H).

Tactic Notation "bind_inv" hyp(H) "as" ident(a) ident(Ha) :=
  apply bind_Ok in H as (a & Ha & H).

Ltac inv_ok H := injection H as H; subst.

(** ** Integer conversions of floats *)

Section Conversions.

Lemma fden_pos (x : float) : 0 < fden x.
Proof. destruct x as [| | |s m [|p|p]]; simpl; lia. Qed.

(** [math.ceil] returns the least integer not below the exact value. *)
Lemma math_ceil_spec (x : float) (k : Z) :
  math_ceil x = Ok k -> (k - 1) * fden x < fnum x <= k * fden x.
Proof.
  destruct x as [s|s| |s m [|p|p]]; simpl; intros H; inversion H; subst; try lia.
  set (d := Z.pos (2 ^ p)). set (n := signed s m).
  assert (Hd : 0 < d) by (unfold d; lia).
  pose proof (Z.mul_div_le (- n) d Hd).
  pose proof (Z.mul_succ_div_gt (- n) d Hd).
  nia.
Qed.

(** [int] truncates the exact value toward zero. *)
Lemma int_of_float_spec (x : float) (k : Z) :
  int_of_float x = Ok k ->
  Z.abs k * fden x <= Z.abs (fnum x) < (Z.abs k + 1) * fden x
  /\ 0 <= k * fnum x.
Proof.
  destruct x as [s|s| |s m [|p|p]]; simpl; intros H; inversion H; subst;
    try (split; lia); try (split; nia).
  set (d := Z.pos (2 ^ p)). set (n := signed s m).
  assert (Hd : 0 < d) by (unfold d; lia).
  pose proof (Z.quot_rem n d ltac:(lia)) as Hqr.
  pose proof (Z.rem_bound_abs n d ltac:(lia)) as Hr.
  assert (Hsgn : 0 <= Z.rem n d * n) by (apply Z.rem_sign_mul; lia).
  destruct (Z_le_gt_dec 0 n) as [Hn|Hn].
  - pose proof (Z.quot_pos n d Hn Hd).
    pose proof (Z.rem_nonneg n d ltac:(lia) Hn). split; nia.
  - assert (Z.rem n d <= 0) by (apply Z.rem_nonpos; lia).
    assert (n ÷ d <= 0) by (apply Z.quot_le_upper_bound; lia || nia).
    split; nia.
Qed.

Lemma div_half_even_spec (n d : Z) :
  0 < d -> 2 * Z.abs (n - div_half_even n d * d) <= d.
Proof.
  intros Hd. unfold div_half_even.
  pose proof (Z.div_mod n d ltac:(lia)) as Hdm.
  pose proof (Z.mod_pos_bound n d Hd) as Hb.
  destruct (2 * (n mod d) ?= d) eqn:Hc;
    [apply Z.compare_eq in Hc; destruct (Z.even (n / d))
    | rewrite Z.compare_lt_iff in Hc
    | rewrite Z.compare_gt_iff in Hc]; nia.
Qed.

(** [round] returns an integer nearest to the exact value. *)
Lemma round0_spec (x : float) (k : Z) :
  round0 x = Ok k -> 2 * Z.abs (fnum x - k * fden x) <= fden x.
Proof.
  destruct x as [s|s| |s m [|p|p]]; simpl; intros H; inversion H; subst; try lia.
  apply div_half_even_spec. lia.
Qed.

(** The feasibility test compares exactly. *)
Lemma gt_Z_spec (x : float) (z : Z) :
  is_finite x = true -> (gt_Z x z = true <-> z * fden x < fnum x).
Proof.
  unfold gt_Z, compare_Z, fnum, fden.
  destruct x as [s|s| |s m [|p|p]]; try discriminate; intros _.
  all: match goal with |- context [?a ?= ?b] => destruct (Z.compare_spec a b) end.
  all: split; intros; try discriminate; lia.
Qed.

(** What [int] consumes of a feasible amount never exceeds the fuel. *)
Lemma int_of_float_le (x : float) (z k : Z) :
  gt_Z x z = false -> int_of_float x = Ok k -> k <= z.
Proof.
  intros Hgt Hk.
  assert (Hfin : is_finite x = true)
    by (destruct x as [| | |s m e]; simpl in *; try discriminate; reflexivity).
  pose proof (gt_Z_spec x z Hfin) as Hspec.
  assert (Hle : fnum x <= z * fden x).
  { destruct (Z_lt_le_dec (z * fden x) (fnum x)) as [Hlt|]; [|assumption].
    apply Hspec in Hlt. congruence. }
  pose proof (int_of_float_spec x k Hk) as [[Ha Hb] Hs].
  pose proof (fden_pos x).
  destruct (Z_le_gt_dec k z); [assumption|exfalso].
  assert ((z + 1) * fden x <= k * fden x) by nia.
  destruct (Z.abs_spec k) as [[? Hk']|[? Hk']]; rewrite Hk' in *;
    destruct (Z.abs_spec (fnum x)) as [[? Hn']|[? Hn']]; rewrite Hn' in *; nia.
Qed.

(** A float without sign truncates to a natural number. *)
Lemma int_of_float_nonneg (x : float) (k : Z) :
  sign_bit x = false -> int_of_float x = Ok k -> 0 <= k.
Proof.
  destruct x as [s|s| |s m [|p|p]]; simpl; intros Hs H; inversion H; subst;
    unfold signed; try lia.
  apply Z.quot_pos; lia.
Qed.

End Conversions.

(** ** Rounding to nearest, in arithmetic *)

Lemma digits2_pos_size (p : positive) : digits2_pos p = Pos.size p.
Proof. induction p; simpl; congruence. Qed.

Lemma digits2_log2 (p : positive) : Zpos (digits2_pos p) = Z.log2 (Zpos p) + 1.
Proof.
  rewrite digits2_pos_size. destruct p; simpl; lia.
Qed.

Lemma Zdigits2_log2 (m : Z) : 0 < m -> Zdigits2 m = Z.log2 m + 1.
Proof. destruct m; try lia. intros _. apply digits2_log2. Qed.

Lemma Zdigits2_nonneg (m : Z) : 0 <= Zdigits2 m.
Proof. destruct m; simpl; lia. Qed.

Lemma iter_pos_iter {A} (f : A -> A) (p : positive) : forall x,
  SpecFloat.iter_pos f p x = Pos.iter f x p.
Proof.
  induction p as [p IH|p IH|]; intros x; simpl; try reflexivity.
  - rewrite !IH. rewrite <- Pos.iter_swap. rewrite <- Pos.iter_swap. reflexivity.
  - rewrite !IH. reflexivity.
Qed.

Lemma shr_1_m (mrs : shr_record) :
  0 <= shr_m mrs -> shr_m (shr_1 mrs) = shr_m mrs / 2.
Proof.
  destruct mrs as [m r s]. simpl. intros Hm.
  destruct m as [|[p|p|]|p]; try lia; simpl shr_m.
  - reflexivity.
  - rewrite Pos2Z.inj_xI. apply Z.div_unique with (r := 1); lia.
  - rewrite Pos2Z.inj_xO. apply Z.div_unique with (r := 0); lia.
  - reflexivity.
Qed.

Lemma iter_shr_1_m (p : positive) (mrs : shr_record) :
  0 <= shr_m mrs ->
  shr_m (SpecFloat.iter_pos shr_1 p mrs) = shr_m mrs / 2 ^ Zpos p.
Proof.
  intros Hm. rewrite iter_pos_iter.
  induction p as [|p IH] using Pos.peano_ind.
  - simpl. rewrite shr_1_m by assumption. reflexivity.
  - rewrite Pos.iter_succ. rewrite shr_1_m.
    + rewrite IH. rewrite Pos2Z.inj_succ, Z.pow_succ_r by lia.
      rewrite Z.div_div by lia. f_equal. lia.
    + rewrite IH. apply Z.div_pos; lia.
Qed.

Lemma shr_record_of_loc_m m l : shr_m (shr_record_of_loc m l) = m.
Proof. destruct l as [|[]]; reflexivity. Qed.

(** Mantissa and exponent after [shr_fexp]. *)
Lemma shr_fexp_m prec emax m e l mrs e' :
  0 <= m ->
  shr_fexp prec emax m e l = (mrs, e') ->
  let n := fexp prec emax (Zdigits2 m + e) - e in
  e' = Z.max e (e + n) /\ shr_m mrs = m / 2 ^ (Z.max 0 n).
Proof.
  intros Hm. unfold shr_fexp, shr.
  destruct (fexp prec emax (Zdigits2 m + e) - e) as [|p|p] eqn:Hn;
    intros H; injection H as <- <-; cbn zeta.
  - rewrite shr_record_of_loc_m. split; [lia|]. simpl. rewrite Z.div_1_r. reflexivity.
  - rewrite iter_shr_1_m by (rewrite shr_record_of_loc_m; lia).
    rewrite shr_record_of_loc_m. split; [lia|]. f_equal.
  - rewrite shr_record_of_loc_m. split; [lia|]. simpl. rewrite Z.div_1_r. reflexivity.
Qed.

Section Rounding.

Variables prec emax : Z.
Hypothesis prec_pos : 0 < prec.
Hypothesis prec_lt_emax : prec < emax.



Lemma Zdigits2_div_pow2 (m n : Z) :
  0 <= n -> 0 < m / 2 ^ n -> Zdigits2 (m / 2 ^ n) = Zdigits2 m - n.
Proof.
  intros Hn Hq.
  assert (Hm : 0 < m).
  { destruct (Z_lt_le_dec 0 m) as [|Hle]; [assumption|exfalso].
    assert (m / 2 ^ n <= 0) by (apply Z.div_le_upper_bound; nia || lia).
    lia. }
  rewrite !Zdigits2_log2 by assumption.
  rewrite <- Z.shiftr_div_pow2 in * by assumption.
  rewrite Z.log2_shiftr by assumption.
  assert (0 <= Z.log2 m - n); [|lia].
  destruct (Z_lt_le_dec (Z.log2 m) n) as [Hlt|]; [exfalso|lia].
  rewrite Z.shiftr_eq_0 in Hq; lia.
Qed.

Lemma Zdigits2_succ_le (m : Z) : 0 <= m -> Zdigits2 (m + 1) <= Zdigits2 m + 1.
Proof.
  intros Hm. destruct (Z.eq_dec m 0) as [->|Hne]; [simpl; lia|].
  rewrite !Zdigits2_log2 by lia.
  pose proof (Z.log2_succ_le m). unfold Z.succ in *. lia.
Qed.

Lemma Zdigits2_mono (a b : Z) : 0 <= a <= b -> Zdigits2 a <= Zdigits2 b.
Proof.
  intros [Ha Hab]. destruct (Z.eq_dec a 0) as [->|Hne].
  - apply Zdigits2_nonneg.
  - rewrite !Zdigits2_log2 by lia. pose proof (Z.log2_le_mono a b Hab). lia.
Qed.

Lemma round_nearest_even_range (m : Z) (l : location) :
  m <= round_nearest_even m l <= m + 1.
Proof. destruct l as [|[]]; simpl; try lia. destruct (Z.even m); lia. Qed.

(** The two stages of [binary_round_aux], in arithmetic. *)
Lemma binary_round_aux_stages (sx : bool) (mx ex : Z) (lx : location) :
  0 <= mx ->
  exists m1 m2 e1 e2,
    e1 = Z.max ex (fexp prec emax (Zdigits2 mx + ex))
    /\ mx / 2 ^ (e1 - ex) <= m1 <= mx / 2 ^ (e1 - ex) + 1
    /\ e2 = Z.max e1 (fexp prec emax (Zdigits2 m1 + e1))
    /\ m2 = m1 / 2 ^ (e2 - e1)
    /\ binary_round_aux prec emax sx mx ex lx =
       match m2 with
       | Z0 => S754_zero sx
       | Zpos m => if e2 <=? emax - prec then S754_finite sx m e2
                   else S754_infinity sx
       | Zneg _ => S754_nan
       end.
Proof.
  intros Hm. unfold binary_round_aux.
  destruct (shr_fexp prec emax mx ex lx) as [mrs' e'] eqn:H1.
  apply shr_fexp_m in H1 as [He' Hm']; [|assumption].
  set (m1 := round_nearest_even (shr_m mrs') (loc_of_shr_record mrs')).
  assert (Hm1 : shr_m mrs' <= m1 <= shr_m mrs' + 1)
    by apply round_nearest_even_range.
  assert (H0 : 0 <= shr_m mrs').
  { rewrite Hm'. apply Z.div_pos; [assumption|]. apply Z.pow_pos_nonneg; lia. }
  destruct (shr_fexp prec emax m1 e' loc_Exact) as [mrs'' e''] eqn:H2.
  apply shr_fexp_m in H2 as [He'' Hm'']; [|lia].
  exists m1, (shr_m mrs''), e', e''.
  replace (Z.max 0 (fexp prec emax (Zdigits2 mx + ex) - ex)) with (e' - ex) in Hm' by lia.
  replace (Z.max 0 (fexp prec emax (Zdigits2 m1 + e') - e')) with (e'' - e') in Hm'' by lia.
  rewrite <- Hm'. repeat split; try lia; try assumption.
Qed.

Lemma binary_round_aux_not_nan (sx : bool) (mx ex : Z) (lx : location) :
  0 <= mx -> binary_round_aux prec emax sx mx ex lx <> S754_nan.
Proof.
  intros Hm.
  destruct (binary_round_aux_stages sx mx ex lx Hm)
    as (m1 & m2 & e1 & e2 & He1 & Hm1 & He2 & Hm2 & ->).
  assert (0 <= mx / 2 ^ (e1 - ex))
    by (apply Z.div_pos; [assumption|apply Z.pow_pos_nonneg; lia]).
  assert (0 <= m2)
    by (subst m2; apply Z.div_pos; [lia|apply Z.pow_pos_nonneg; lia]).
  destruct m2; try lia; try discriminate.
  destruct (e2 <=? emax - prec); discriminate.
Qed.


(** No overflow below the largest binade. *)
Lemma binary_round_aux_no_overflow (sx : bool) (mx ex : Z) (lx : location) :
  0 <= mx -> ex <= emax - prec -> Zdigits2 mx + ex <= emax - 1 ->
  forall s, binary_round_aux prec emax sx mx ex lx <> S754_infinity s.
Proof.
  intros Hm Hex Hd s.
  destruct (binary_round_aux_stages sx mx ex lx Hm)
    as (m1 & m2 & e1 & e2 & He1 & Hm1 & He2 & Hm2 & ->).
  assert (Hq : 0 <= mx / 2 ^ (e1 - ex))
    by (apply Z.div_pos; [assumption|apply Z.pow_pos_nonneg; lia]).
  assert (He1' : e1 <= emax - prec) by (unfold fexp, emin in He1; lia).
  assert (Hd1 : Zdigits2 m1 + e1 <= emax).
  { assert (Zdigits2 m1 <= Zdigits2 (mx / 2 ^ (e1 - ex)) + 1).
    { etransitivity; [apply Zdigits2_mono with (b := mx / 2 ^ (e1 - ex) + 1); lia|].
      apply Zdigits2_succ_le. assumption. }
    destruct (Z.eq_dec (mx / 2 ^ (e1 - ex)) 0) as [Hz|Hnz].
    - rewrite Hz in *. simpl in *. lia.
    - rewrite Zdigits2_div_pow2 in * by lia. lia. }
  assert (e2 <= emax - prec) by (unfold fexp, emin in He2; lia).
  destruct m2; try discriminate.
  destruct (e2 <=? emax - prec) eqn:Hle; [discriminate|].
  apply Z.leb_gt in Hle. lia.
Qed.


End Rounding.

(** ** Binary64 facts *)

Lemma prec_pos : 0 < prec.
Proof. reflexivity. Qed.

Lemma prec_lt_emax : prec < emax.
Proof. reflexivity. Qed.


Lemma Zdigits2_mul_pow2 (m n : Z) :
  0 < m -> 0 <= n -> Zdigits2 (m * 2 ^ n) = Zdigits2 m + n.
Proof.
  intros Hm Hn.
  assert (0 < m * 2 ^ n) by (apply Z.mul_pos_pos; [lia|by apply Z.pow_pos_nonneg]).
  rewrite !Zdigits2_log2 by lia. rewrite Z.log2_mul_pow2 by lia. lia.
Qed.



(** The quotient computed by the division of two significands. *)
Lemma SFdiv_core_binary_bounds (m1 m2 : positive) (q e' : Z) (l : location) :
  SFdiv_core_binary prec emax (Z.pos m1) 0 (Z.pos m2) 0 = (q, e', l) ->
  0 <= q /\ e' <= 0
  /\ Zdigits2 q + e' <= Z.max 0 (Zdigits2 (Z.pos m1) - Zdigits2 (Z.pos m2) + 1).
Proof.
  unfold SFdiv_core_binary.
  set (d1 := Zdigits2 (Z.pos m1)). set (d2 := Zdigits2 (Z.pos m2)).
  set (e0 := Z.min (fexp prec emax (d1 + 0 - (d2 + 0))) (0 - 0)).
  assert (He0 : e0 <= 0) by (unfold e0; lia).
  set (m' := match 0 - 0 - e0 with
             | 0 => Z.pos m1
             | Z.pos _ => Z.shiftl (Z.pos m1) (0 - 0 - e0)
             | Z.neg _ => 0
             end).
  assert (Hm' : m' = Z.pos m1 * 2 ^ (- e0)).
  { unfold m'. replace (0 - 0 - e0) with (- e0) by lia.
    destruct (- e0) as [|p|p] eqn:Hs; try lia.
    rewrite Z.shiftl_mul_pow2; lia. }
  destruct (Z.div_eucl m' (Z.pos m2)) as [q0 r0] eqn:Hdiv.
  intros H. injection H as <- <- <-.
  assert (Hq : q0 = m' / Z.pos m2) by (unfold Z.div; by rewrite Hdiv).
  assert (Hm'pos : 0 < m')
    by (rewrite Hm'; apply Z.mul_pos_pos; [lia|apply Z.pow_pos_nonneg; lia]).
  assert (Hq0 : 0 <= q0) by (rewrite Hq; apply Z.div_pos; lia).
  repeat split; [assumption|assumption|].
  assert (Hd2 : 1 <= d2) by (unfold d2; simpl; lia).
  assert (Hlow : 2 ^ (d2 - 1) <= Z.pos m2).
  { unfold d2. rewrite Zdigits2_log2 by lia.
    replace (Z.log2 (Z.pos m2) + 1 - 1) with (Z.log2 (Z.pos m2)) by lia.
    apply Z.log2_spec. lia. }
  assert (Hle : q0 <= m' / 2 ^ (d2 - 1)).
  { rewrite Hq. apply Z.div_le_compat_l; [lia|].
    split; [apply Z.pow_pos_nonneg; lia|assumption]. }
  assert (Hdm' : Zdigits2 m' = d1 - e0)
    by (rewrite Hm', Zdigits2_mul_pow2 by lia; unfold d1; lia).
  destruct (Z.eq_dec (m' / 2 ^ (d2 - 1)) 0) as [Hz|Hnz].
  - assert (q0 = 0) by lia. subst q0. rewrite H. simpl. lia.
  - assert (0 <= m' / 2 ^ (d2 - 1))
      by (apply Z.div_pos; [lia|apply Z.pow_pos_nonneg; lia]).
    pose proof (Zdigits2_mono q0 (m' / 2 ^ (d2 - 1)) ltac:(lia)) as Hmono.
    rewrite Zdigits2_div_pow2 in Hmono by lia. lia.
Qed.

(** Dividing integers of comparable length never overflows. *)
Lemma int_true_div_total (a b : Z) :
  b <> 0 -> Zdigits2 a - Zdigits2 b <= 1022 ->
  exists r, int_true_div a b = Ok r.
Proof.
  intros Hb Hd. unfold int_true_div.
  destruct b as [|pb|pb]; try lia; destruct a as [|pa|pa]; try by eexists.
  all: cbn [raw_of_Z SFdiv].
  all: destruct (SFdiv_core_binary prec emax (Z.pos pa) 0 (Z.pos pb) 0)
         as [[q e'] l] eqn:Hcore.
  all: apply SFdiv_core_binary_bounds in Hcore as (Hq & He & Hdq).
  all: match goal with
       | |- context [binary_round_aux prec emax ?s ?q0 ?e0 ?l0] =>
           pose proof (binary_round_aux_no_overflow prec emax prec_pos prec_lt_emax
                         s q0 e0 l0 Hq) as Hno;
           destruct (binary_round_aux prec emax s q0 e0 l0) as [| s' | |] eqn:Hr;
           try by eexists
       end.
  all: cbn [Zdigits2] in Hd, Hdq.
  all: exfalso; apply (Hno ltac:(unfold emax, prec; lia)
                          ltac:(unfold emax; lia) s'); reflexivity.
Qed.







(** ** Signs of products *)

Section Signs.

Lemma binary_round_aux_sign (sx : bool) (mx ex : Z) (lx : location) :
  let r := binary_round_aux prec emax sx mx ex lx in
  is_nan r = false -> sign_bit r = sx.
Proof.
  unfold binary_round_aux.
  destruct (shr_fexp prec emax mx ex lx) as [mrs' e'].
  destruct (shr_fexp prec emax _ e' loc_Exact) as [mrs'' e''].
  destruct (shr_m mrs'') as [|m|m]; simpl; try discriminate; try reflexivity.
  destruct (e'' <=? emax - prec); reflexivity.
Qed.

(** A product that is a number carries the exclusive or of the signs. *)
Lemma fmul_sign (x y : float) :
  is_nan (fmul x y) = false ->
  sign_bit (fmul x y) = xorb (sign_bit x) (sign_bit y).
Proof.
  destruct x as [sx|sx| |sx mx ex], y as [sy|sy| |sy my ey];
    simpl; try discriminate; try reflexivity.
  apply binary_round_aux_sign.
Qed.

Lemma int_of_float_not_nan (x : float) (k : Z) :
  int_of_float x = Ok k -> is_nan x = false.
Proof. destruct x; simpl; try discriminate; reflexivity. Qed.

End Signs.

(** ** The frontier keeps what its entries satisfy *)

Section HeapForall.

Variable P : entry -> Prop.

Lemma siftdown_Forall (n : nat) : forall heap startpos pos newitem heap',
  heapq.siftdown n heap startpos pos newitem = Ok heap' ->
  Forall P heap -> P newitem -> Forall P heap'.
Proof.
  induction n as [|n IH]; intros heap startpos pos newitem heap' H HF Hx;
    cbn [heapq.siftdown] in H.
  - inv_ok H. by apply Forall_insert.
  - destruct (startpos <? pos)%nat; [|inv_ok H; by apply Forall_insert].
    match type of H with context [heap !! ?i] =>
      destruct (heap !! i) as [parent|] eqn:Hp end;
      [|inv_ok H; by apply Forall_insert].
    inv_bind H. destruct a.
    + eapply IH; [exact H| |exact Hx].
      apply Forall_insert; [assumption|].
      eapply Forall_lookup_1; eassumption.
    + inv_ok H. by apply Forall_insert.
Qed.

Lemma heappush_Forall (heap : list entry) (item : entry) (heap' : list entry) :
  heapq.heappush heap item = Ok heap' ->
  Forall P heap -> P item -> Forall P heap'.
Proof.
  unfold heapq.heappush. intros H HF Hx.
  eapply siftdown_Forall; [exact H| |exact Hx].
  apply Forall_app; split; [assumption|by constructor].
Qed.

Lemma siftup_loop_Forall (n : nat) : forall heap pos heap' pos',
  heapq.siftup_loop n heap pos = Ok (heap', pos') ->
  Forall P heap -> Forall P heap'.
Proof.
  induction n as [|n IH]; intros heap pos heap' pos' H HF;
    cbn [heapq.siftup_loop] in H.
  - by inv_ok H.
  - destruct (_ <? length heap)%nat; [|by inv_ok H].
    inv_bind H.
    destruct (heap !! a) as [c|] eqn:Hl; [|by inv_ok H].
    eapply IH; [exact H|].
    apply Forall_insert; [assumption|].
    eapply Forall_lookup_1; eassumption.
Qed.

Lemma siftup_Forall (heap : list entry) (pos : nat) (heap' : list entry) :
  heapq.siftup heap pos = Ok heap' -> Forall P heap -> Forall P heap'.
Proof.
  unfold heapq.siftup. intros H HF.
  destruct (heap !! pos) as [newitem|] eqn:Hn; [|by inv_ok H].
  inv_bind H. destruct a as [h1 p1].
  assert (Hx : P newitem) by (eapply Forall_lookup_1; eassumption).
  eapply siftdown_Forall; [exact H| |exact Hx].
  apply Forall_insert; [|assumption].
  eapply siftup_loop_Forall; eassumption.
Qed.

Lemma last_Forall (l : list entry) (x : entry) :
  last l = Some x -> Forall P l -> P x.
Proof.
  intros Hl HF. rewrite Forall_forall in HF. apply HF.
  apply last_Some in Hl as [l' ->]. apply elem_of_app. right. by left.
Qed.

Lemma removelast_Forall (l : list entry) :
  Forall P l -> Forall P (removelast l).
Proof.
  induction 1 as [|x l Hx HF IH]; simpl; [constructor|].
  destruct l; [constructor|]. by constructor.
Qed.

Lemma heappop_Forall (heap : list entry) (item : entry) (heap' : list entry) :
  heapq.heappop heap = Some (Ok (item, heap')) ->
  Forall P heap -> P item /\ Forall P heap'.
Proof.
  unfold heapq.heappop. intros H HF.
  destruct (last heap) as [lastelt|] eqn:Hl; [|discriminate].
  pose proof (last_Forall _ _ Hl HF) as Hlast.
  pose proof (removelast_Forall _ HF) as Hrem.
  destruct (removelast heap) as [|returnitem rest]; [by inversion H; subst|].
  inversion Hrem as [|? ? Hr Hrest]; subst.
  injection H as H. inv_bind H. inv_ok H. split; [assumption|].
  eapply siftup_Forall; [exact Ha|]. by constructor.
Qed.

End HeapForall.

(** ** The iteration bounds of the heap are never reached *)

Lemma siftdown_enough (n : nat) : forall m heap startpos pos newitem,
  (pos <= n)%nat -> (pos <= m)%nat ->
  heapq.siftdown n heap startpos pos newitem
  = heapq.siftdown m heap startpos pos newitem.
Proof.
  induction n as [|n IH]; intros [|m] heap startpos pos newitem Hn Hm;
    cbn [heapq.siftdown]; try reflexivity.
  - assert (pos = 0)%nat as -> by lia. by destruct startpos.
  - assert (pos = 0)%nat as -> by lia. by destruct startpos.
  - destruct (startpos <? pos)%nat eqn:Hlt; [|reflexivity].
    apply Nat.ltb_lt in Hlt.
    assert (Hp : ((pos - 1) / 2 <= pos - 1)%nat)
      by (apply Nat.Div0.div_le_upper_bound; lia).
    destruct (heap !! ((pos - 1) / 2)%nat); [|reflexivity].
    destruct (entry_lt newitem e) as [[|]|]; cbn [mbind exc_bind]; try reflexivity.
    apply IH; lia.
Qed.

Lemma siftup_loop_enough (n : nat) : forall m heap pos,
  (length heap - pos <= n)%nat -> (length heap - pos <= m)%nat ->
  heapq.siftup_loop n heap pos = heapq.siftup_loop m heap pos.
Proof.
  induction n as [|n IH]; intros [|m] heap pos Hn Hm;
    cbn [heapq.siftup_loop]; try reflexivity.
  - destruct (2 * pos + 1 <? length heap)%nat eqn:Hlt; [|reflexivity].
    apply Nat.ltb_lt in Hlt. lia.
  - destruct (2 * pos + 1 <? length heap)%nat eqn:Hlt; [|reflexivity].
    apply Nat.ltb_lt in Hlt. lia.
  - destruct (2 * pos + 1 <? length heap)%nat eqn:Hlt; [|reflexivity].
    apply Nat.ltb_lt in Hlt.
    match goal with
    | |- ?c ≫= _ = _ => destruct c as [child|] eqn:Hchild
    end; [|reflexivity].
    cbn [mbind exc_bind].
    destruct (heap !! child) as [c|] eqn:Hc; [|reflexivity].
    apply lookup_lt_Some in Hc.
    assert (2 * pos + 1 <= child)%nat.
    { destruct (heap !! (2 * pos + 1)%nat); [|inv_ok Hchild; lia].
      destruct (heap !! (2 * pos + 1 + 1)%nat); [|inv_ok Hchild; lia].
      bind_inv Hchild as b Hb. inv_ok Hchild. destruct b; lia. }
    apply IH; rewrite length_insert; lia.
Qed.

(** ** States the search passes through *)

(** What one accepted transition yields. *)
Lemma relax_inversion M plane target_city cur st edge st' :
  relax M plane target_city cur st edge = Ok st' ->
  st' = st \/
  exists next_city time_needed fuel_consumed new_g new_fuel new_refuel_count h open',
    get_other_city edge (e_city cur) = Ok next_city
    /\ calculate_edge_time_and_fuel plane edge (e_fuel cur)
       = Ok (time_needed, fuel_consumed)
    /\ feqb time_needed pinf = false
    /\ arrive plane cur next_city time_needed fuel_consumed
       = (new_g, new_fuel, new_refuel_count)
    /\ seen (visited st) (name next_city, new_fuel) new_g = false
    /\ h_score M plane next_city target_city = Ok h
    /\ heapq.heappush (open_set st)
         (mkEntry (fadd new_g h) new_g next_city new_fuel
            (e_path cur ++ [next_city]) new_refuel_count) = Ok open'
    /\ st' = mkState open' (<[(name next_city, new_fuel) := new_g]> (visited st)).
Proof.
  unfold relax. intros H.
  inv_bind H. rename a into next_city.
  inv_bind H. destruct a as [time_needed fuel_consumed].
  destruct (feqb time_needed pinf) eqn:Hinf; [inv_ok H; by left|].
  destruct (arrive plane cur next_city time_needed fuel_consumed)
    as [[new_g new_fuel] new_refuel_count] eqn:Harr.
  destruct (seen _ _ _) eqn:Hseen; [inv_ok H; by left|].
  inv_bind H. rename a into h. inv_bind H. inv_ok H.
  right. by repeat eexists.
Qed.

(** A transition that is accepted goes on to the heuristic and the push. *)
Lemma relax_forward M plane target_city cur st edge nc t fc g' fuel' rc' :
  get_other_city edge (e_city cur) = Ok nc ->
  calculate_edge_time_and_fuel plane edge (e_fuel cur) = Ok (t, fc) ->
  feqb t pinf = false ->
  arrive plane cur nc t fc = (g', fuel', rc') ->
  seen (visited st) (name nc, fuel') g' = false ->
  relax M plane target_city cur st edge =
    (h ← h_score M plane nc target_city;
     open' ← heapq.heappush (open_set st)
               (mkEntry (fadd g' h) g' nc fuel' (e_path cur ++ [nc]) rc');
     Ok (mkState open' (<[(name nc, fuel') := g']> (visited st)))).
Proof.
  intros Hnc Hcalc Hfin Harr Hseen. unfold relax.
  rewrite Hnc. cbn [mbind exc_bind]. rewrite Hcalc. cbn [mbind exc_bind].
  rewrite Hfin, Harr, Hseen. reflexivity.
Qed.

Section FrontierInvariant.

Variable M : pymath.
Variable graph : Graph.
Variable plane : Plane.
Variable start_city target_city : City.
Variable P : entry -> Prop.

Hypothesis P_start : forall h,
  h_score M plane start_city target_city = Ok h ->
  P (mkEntry (fadd pzero h) pzero start_city (tank_capacity plane) [start_city] 0).

Hypothesis P_push : forall cur edge next_city time_needed fuel_consumed
    new_g new_fuel new_refuel_count h,
  P cur ->
  In edge (edges graph) ->
  get_other_city edge (e_city cur) = Ok next_city ->
  calculate_edge_time_and_fuel plane edge (e_fuel cur)
    = Ok (time_needed, fuel_consumed) ->
  feqb time_needed pinf = false ->
  arrive plane cur next_city time_needed fuel_consumed
    = (new_g, new_fuel, new_refuel_count) ->
  h_score M plane next_city target_city = Ok h ->
  P (mkEntry (fadd new_g h) new_g next_city new_fuel
       (e_path cur ++ [next_city]) new_refuel_count).

Lemma relax_all_Forall (cur : entry) (es : list Edge) :
  P cur -> (forall e, In e es -> In e (edges graph)) ->
  forall st st',
  relax_all M plane target_city cur st es = Ok st' ->
  Forall P (open_set st) -> Forall P (open_set st').
Proof.
  intros Hcur. induction es as [|e es IH]; intros Hsub st st' H HF;
    cbn [relax_all] in H.
  - by inv_ok H.
  - inv_bind H. rename a into st1.
    eapply (IH (fun e' He' => Hsub e' (or_intror He'))); [exact H|].
    apply relax_inversion in Ha
      as [->|(nc & t & fc & g' & fuel' & rc' & h & open' & Hnc & Hcalc & Hfin
               & Harr & _ & Hh & Hpush & ->)]; [assumption|].
    cbn [open_set]. eapply heappush_Forall; [exact Hpush|assumption|].
    eapply P_push; eauto. apply Hsub. by left.
Qed.

Lemma a_star_step_Forall (st st' : search_state) :
  a_star_step M graph plane target_city st = Ok (inl st') ->
  Forall P (open_set st) -> Forall P (open_set st').
Proof.
  unfold a_star_step. intros H HF.
  destruct (heapq.heappop (open_set st)) as [[[cur rest]|]|] eqn:Hpop;
    cbn in H; try discriminate.
  apply heappop_Forall with (P := P) in Hpop as [Hcur Hrest]; [|assumption].
  destruct (city_eqb (e_city cur) target_city).
  - inv_bind H. discriminate.
  - inv_bind H. inv_ok H.
    eapply relax_all_Forall in Ha; [exact Ha|assumption| |assumption].
    unfold get_edges_from_city. intros e He.
    apply filter_In in He as [He _]. exact He.
Qed.

(** Every entry of the frontier of every state of the search satisfies
    what the pushes establish. *)
Lemma frontier_invariant (st : search_state) :
  reachable M graph plane start_city target_city st -> Forall P (open_set st).
Proof.
  induction 1 as [st Hinit|st st' Hreach IH Hstep].
  - unfold initial_state in Hinit. inv_bind Hinit. inv_ok Hinit.
    cbn [open_set]. constructor; [by apply P_start|constructor].
  - eapply a_star_step_Forall; eassumption.
Qed.

End FrontierInvariant.

(** ** The edge cost evaluator, step by step *)

Lemma calculate_open (pl : Plane) (e : Edge) (F : Z) :
  closed e = false ->
  calculate_edge_time_and_fuel pl e F =
    (cs ← float_of_Z (cruise_speed pl);
     time_hours ← fdiv (distance_km e) (effective_speed cs e);
     if gt_Z (fuel_needed pl e) F then Ok (pinf, 0)
     else
       tenths ← math_ceil (fmul time_hours f10);
       time_hours ← int_true_div tenths 10;
       fuel ← int_of_float (fuel_needed pl e);
       Ok (time_hours, fuel)).
Proof.
  intros Hc. unfold calculate_edge_time_and_fuel, fuel_needed, effective_speed.
  rewrite Hc. by destruct (wind_multipliers e).
Qed.

(** A usable transition went through every step of the evaluator. *)
Lemma calculate_inversion (pl : Plane) (e : Edge) (F : Z) (t : float) (fc : Z) :
  calculate_edge_time_and_fuel pl e F = Ok (t, fc) ->
  feqb t pinf = false ->
  closed e = false /\
  exists cs time_raw tenths,
    float_of_Z (cruise_speed pl) = Ok cs
    /\ fdiv (distance_km e) (effective_speed cs e) = Ok time_raw
    /\ gt_Z (fuel_needed pl e) F = false
    /\ math_ceil (fmul time_raw f10) = Ok tenths
    /\ int_true_div tenths 10 = Ok t
    /\ int_of_float (fuel_needed pl e) = Ok fc.
Proof.
  intros H Hfin.
  destruct (closed e) eqn:Hc.
  - unfold calculate_edge_time_and_fuel in H. rewrite Hc in H. by inv_ok H.
  - split; [reflexivity|]. rewrite calculate_open in H by assumption.
    inv_bind H. rename a into cs. inv_bind H. rename a into time_raw.
    destruct (gt_Z (fuel_needed pl e) F) eqn:Hgt; [by inv_ok H|].
    inv_bind H. rename a into tenths. inv_bind H. inv_bind H. inv_ok H.
    by exists cs, time_raw, tenths.
Qed.

Lemma fnonneg_fmul (x y : float) :
  fnonneg x = true -> fnonneg y = true -> is_nan (fmul x y) = false ->
  fnonneg (fmul x y) = true.
Proof.
  destruct x as [sx|[|]| |[|] mx ex]; try discriminate;
    destruct y as [sy|[|]| |[|] my ey]; try discriminate;
    intros _ _ Hn; try reflexivity.
  pose proof (fmul_sign _ _ Hn) as Hs.
  destruct (fmul _ _) as [s|s| |s m e]; try discriminate;
    simpl in Hs; subst; reflexivity.
Qed.

Lemma fnonneg_wind (e : Edge) : fnonneg (snd (wind_multipliers e)) = true.
Proof. unfold wind_multipliers. by destruct (headwind e), (fairwind e). Qed.

Lemma fnonneg_fnum (x : float) : fnonneg x = true -> 0 <= fnum x.
Proof.
  destruct x as [s|s| |[|] m [|p|p]]; try discriminate; intros _; simpl; lia.
Qed.

Lemma int_of_fnonneg (x : float) (k : Z) :
  fnonneg x = true -> int_of_float x = Ok k -> 0 <= k.
Proof.
  destruct x as [s|s| |[|] m e]; try discriminate; intros _ H.
  - by inv_ok H.
  - by apply (int_of_float_nonneg (S754_finite false m e)).
Qed.

(** With non-negative distance and consumption an edge consumes a
    non-negative amount of fuel. *)
Lemma fuel_needed_nonneg (pl : Plane) (e : Edge) :
  fnonneg (distance_km e) = true ->
  fnonneg (fuel_consumption pl) = true ->
  is_nan (fuel_needed pl e) = false ->
  fnonneg (fuel_needed pl e) = true.
Proof.
  intros Hd Hc Hn. unfold fuel_needed in *.
  apply fnonneg_fmul; [assumption| |assumption].
  apply fnonneg_fmul; [assumption|apply fnonneg_wind|].
  destruct (fmul (fuel_consumption pl) _); try reflexivity.
  by destruct (distance_km e).
Qed.

Lemma fuel_consumed_nonneg (pl : Plane) (e : Edge) (F : Z) (t : float) (fc : Z) :
  fnonneg (distance_km e) = true ->
  fnonneg (fuel_consumption pl) = true ->
  calculate_edge_time_and_fuel pl e F = Ok (t, fc) ->
  0 <= fc.
Proof.
  intros Hd Hc H.
  destruct (closed e) eqn:Hcl.
  - unfold calculate_edge_time_and_fuel in H. rewrite Hcl in H. by inv_ok H.
  - rewrite calculate_open in H by assumption.
    inv_bind H. inv_bind H.
    destruct (gt_Z _ _); [by inv_ok H|].
    inv_bind H. inv_bind H. bind_inv H as fuel Hfuel. inv_ok H.
    eapply int_of_fnonneg; [|exact Hfuel].
    apply fuel_needed_nonneg; try assumption.
    by apply int_of_float_not_nan in Hfuel.
Qed.

(** A usable transition never consumes more than the fuel on board. *)
Lemma fuel_consumed_le (pl : Plane) (e : Edge) (F : Z) (t : float) (fc : Z) :
  calculate_edge_time_and_fuel pl e F = Ok (t, fc) ->
  feqb t pinf = false ->
  fc <= F.
Proof.
  intros H Hfin.
  apply calculate_inversion in H as (_ & cs & tr & k & _ & _ & Hgt & _ & _ & Hfc);
    [|assumption].
  eapply int_of_float_le; eassumption.
Qed.

(** ** States of the demonstration search *)

Lemma demo_state1_reachable :
  reachable Demo.libm Demo.create_test_graph Demo.plane Demo.moscow Demo.sochi
    demo_state1.
Proof.
  apply reach_step with (st := demo_state0).
  - apply reach_init. vm_compute. reflexivity.
  - vm_compute. reflexivity.
Qed.

Lemma demo_edges_nonneg :
  Forall (fun e => fnonneg (distance_km e) = true) (edges Demo.create_test_graph).
Proof. repeat constructor. Qed.

(** ** Fuel stays within the tank *)

(** C10: from a full tank of non-negative capacity, every state admitted
    to the frontier has non-negative remaining fuel; an accepted transition
    consumes the truncation of a need that does not exceed the fuel on
    board, so what remains is non-negative. *)
Theorem fuel_never_negative (M : pymath) (graph : Graph) (plane : Plane)
    (start_city target_city : City) (st : search_state) :
  0 <= tank_capacity plane ->
  reachable M graph plane start_city target_city st ->
  Forall (fun x => 0 <= e_fuel x) (open_set st)
  /\ (forall edge current_fuel time_needed fuel_consumed,
        calculate_edge_time_and_fuel plane edge current_fuel
          = Ok (time_needed, fuel_consumed) ->
        feqb time_needed pinf = false ->
        gt_Z (fuel_needed plane edge) current_fuel = false
        /\ int_of_float (fuel_needed plane edge) = Ok fuel_consumed
        /\ 0 <= current_fuel - fuel_consumed).
Proof.
  intros Hcap Hreach. split.
  - eapply frontier_invariant; [| |exact Hreach].
    + intros h _. exact Hcap.
    + intros cur edge nc t fc g' fuel' rc' h Hcur _ _ Hcalc Hfin Harr _.
      cbn [e_fuel] in *. unfold arrive in Harr.
      pose proof (fuel_consumed_le _ _ _ _ _ Hcalc Hfin).
      destruct (has_fuel nc && _); inv_ok Harr; lia.
  - intros edge F t fc Hcalc Hfin.
    pose proof (fuel_consumed_le _ _ _ _ _ Hcalc Hfin).
    apply calculate_inversion in Hcalc
      as (_ & cs & tr & k & _ & _ & Hgt & _ & _ & Hfc); [|assumption].
    repeat split; [assumption|assumption|lia].
Qed.

Lemma fuel_never_negative_witness :
  0 <= tank_capacity Demo.plane
  /\ Forall (fun x => 0 <= e_fuel x) (open_set demo_state1).
Proof.
  split; [vm_compute; discriminate|].
  apply (fuel_never_negative Demo.libm Demo.create_test_graph Demo.plane
           Demo.moscow Demo.sochi demo_state1);
    [vm_compute; discriminate|exact demo_state1_reachable].
Defined.







(** ** The heuristic *)

Lemma haversine_distance_formula (M : pymath) (c1 c2 : City) (km : Z) :
  haversine_distance M c1 c2 = Ok km ->
  exists distance,
    haversine_formula M c1 c2 distance /\ math_ceil distance = Ok km.
Proof.
  unfold haversine_distance, fdiv. change (is_zero f2) with false. cbn iota.
  intros H. do 11 (apply bind_Ok in H as (? & ? & H)).
  repeat match goal with E : Ok _ = Ok _ |- _ => injection E as <- end.
  eexists. split; [|exact H]. econstructor; eassumption.
Qed.

(** C6: for every entry of the frontier of every state of the search, the
    priority is the elapsed time plus the heuristic of the entry's city;
    the heuristic is the haversine distance to the target on a sphere of
    radius 6371 km, rounded up to whole kilometres, divided by the cruise
    speed of the profile, with no wind multiplier. *)
Theorem heuristic_is_haversine_over_cruise_speed (M : pymath) (graph : Graph)
    (plane : Plane) (start_city target_city : City) (st : search_state) :
  reachable M graph plane start_city target_city st ->
  Forall (fun x =>
            exists (distance : float) (km : Z) (h : float),
              haversine_formula M (e_city x) target_city distance
              /\ (km - 1) * fden distance < fnum distance <= km * fden distance
              /\ haversine_distance M (e_city x) target_city = Ok km
              /\ int_true_div km (cruise_speed plane) = Ok h
              /\ e_f x = fadd (e_g x) h)
         (open_set st)
  /\ fnum R_earth = 6371 * fden R_earth.
Proof.
  intros Hreach. split; [|reflexivity].
  assert (Hh : forall c h g,
             h_score M plane c target_city = Ok h ->
             exists (distance : float) (km : Z) (h' : float),
               haversine_formula M c target_city distance
               /\ (km - 1) * fden distance < fnum distance <= km * fden distance
               /\ haversine_distance M c target_city = Ok km
               /\ int_true_div km (cruise_speed plane) = Ok h'
               /\ fadd g h = fadd g h').
  { intros c h g Hs. unfold h_score in Hs.
    inv_bind Hs. rename a into km.
    destruct (haversine_distance_formula _ _ _ _ Ha) as (distance & Hf & Hc).
    exists distance, km, h. repeat split; try assumption;
      by apply math_ceil_spec. }
  eapply frontier_invariant; [| |exact Hreach].
  - intros h Hs. cbn [e_f e_g e_city]. by apply Hh.
  - intros cur edge nc t fc g' fuel' rc' h _ _ _ _ _ _ Hs.
    cbn [e_f e_g e_city]. by apply Hh.
Qed.

Lemma heuristic_is_haversine_over_cruise_speed_witness :
  Forall (fun x =>
            exists (distance : float) (km : Z) (h : float),
              haversine_formula Demo.libm (e_city x) Demo.sochi distance
              /\ (km - 1) * fden distance < fnum distance <= km * fden distance
              /\ haversine_distance Demo.libm (e_city x) Demo.sochi = Ok km
              /\ int_true_div km (cruise_speed Demo.plane) = Ok h
              /\ e_f x = fadd (e_g x) h)
         (open_set demo_state1).
Proof.
  apply (heuristic_is_haversine_over_cruise_speed Demo.libm
           Demo.create_test_graph Demo.plane Demo.moscow Demo.sochi demo_state1
           demo_state1_reachable).
Defined.

(** ** Wind and speed *)

(** C9: on an edge flagged both headwind and fairwind the evaluator
    computes with the headwind multipliers: its speed is the cruise speed
    x0.80 and its consumption the aircraft's x1.20, in every step of the
    computation; it returns what it returns for the edge without the
    fairwind flag, and the multipliers 1.10 and 0.90 are not used. *)
Theorem headwind_takes_precedence (pl : Plane) (e : Edge) (current_fuel : Z) :
  headwind e = true ->
  fairwind e = true ->
  wind_multipliers e = (literal 80 2, literal 120 2)
  /\ (forall cs, effective_speed cs e = fmul cs (literal 80 2))
  /\ fuel_needed pl e
     = fmul (distance_km e) (fmul (fuel_consumption pl) (literal 120 2))
  /\ calculate_edge_time_and_fuel pl e current_fuel
     = calculate_edge_time_and_fuel pl (without_fairwind e) current_fuel
  /\ calculate_edge_time_and_fuel pl e current_fuel
     = (if closed e then Ok (pinf, 0)
        else
          cs ← float_of_Z (cruise_speed pl);
          time_hours ← fdiv (distance_km e) (fmul cs (literal 80 2));
          if gt_Z (fmul (distance_km e)
                     (fmul (fuel_consumption pl) (literal 120 2))) current_fuel
          then Ok (pinf, 0)
          else
            tenths ← math_ceil (fmul time_hours (literal 10 0));
            time_hours ← int_true_div tenths 10;
            fuel ← int_of_float
                     (fmul (distance_km e)
                        (fmul (fuel_consumption pl) (literal 120 2)));
            Ok (time_hours, fuel))
  /\ (forall time fuel,
        calculate_edge_time_and_fuel pl e current_fuel = Ok (time, fuel) ->
        feqb time pinf = false ->
        exists cs tenths,
          float_of_Z (cruise_speed pl) = Ok cs
          /\ math_ceil
               (fmul (SFdiv prec emax (distance_km e) (fmul cs (literal 80 2)))
                  (literal 10 0)) = Ok tenths
          /\ int_true_div tenths 10 = Ok time
          /\ int_of_float
               (fmul (distance_km e) (fmul (fuel_consumption pl) (literal 120 2)))
             = Ok fuel
          /\ gt_Z (fmul (distance_km e)
                     (fmul (fuel_consumption pl) (literal 120 2))) current_fuel
             = false).
Proof.
  intros Hh Hf.
  assert (Hw : wind_multipliers e = (f0_80, f1_20))
    by (unfold wind_multipliers; by rewrite Hh).
  assert (Hw' : wind_multipliers (without_fairwind e) = (f0_80, f1_20))
    by (unfold wind_multipliers, without_fairwind; cbn [headwind]; by rewrite Hh).
  assert (Hspeed : forall cs, effective_speed cs e = fmul cs (literal 80 2))
    by (intros cs; unfold effective_speed; by rewrite Hw).
  assert (Hneed : fuel_needed pl e
                  = fmul (distance_km e)
                      (fmul (fuel_consumption pl) (literal 120 2)))
    by (unfold fuel_needed; by rewrite Hw).
  split; [exact Hw|]. split; [exact Hspeed|]. split; [exact Hneed|].
  split; [|split].
  - unfold calculate_edge_time_and_fuel. rewrite Hw, Hw'. reflexivity.
  - unfold calculate_edge_time_and_fuel. rewrite Hw. reflexivity.
  - intros time fuel Hcalc Hfin.
    apply calculate_inversion in Hcalc
      as (_ & cs & tr & k & Hcs & Htr & Hgt & Hk & Ht & Hfuel); [|assumption].
    rewrite Hspeed in Htr. rewrite Hneed in Hgt, Hfuel.
    unfold fdiv in Htr. destruct (is_zero _); [discriminate|]. inv_ok Htr.
    exists cs, k. by repeat split.
Qed.

Lemma headwind_takes_precedence_witness :
  wind_multipliers both_winds = (literal 80 2, literal 120 2)
  /\ calculate_edge_time_and_fuel Demo.plane both_winds 16000
     = Ok (literal 21 1, 4406)
  /\ calculate_edge_time_and_fuel Demo.plane (without_headwind both_winds) 16000
     = Ok (literal 15 1, 3304).
Proof.
  destruct (headwind_takes_precedence Demo.plane both_winds 16000 eq_refl eq_refl)
    as (Hw & _ & _ & Hc & _).
  split; [exact Hw|]. split; [|vm_compute; reflexivity].
  rewrite Hc. vm_compute. reflexivity.
Defined.

(** C2 (the code departs from it): with a cruise speed, hence an
    effective speed, of zero the evaluator raises [ZeroDivisionError] on
    every open edge instead of returning the infeasibility sentinel, and
    with a negative effective speed it returns a negative finite time. *)
Theorem zero_speed_is_a_division_fault (pl : Plane) (e : Edge) (current_fuel : Z) :
  closed e = false -> cruise_speed pl = 0 ->
  calculate_edge_time_and_fuel pl e current_fuel = Raise ZeroDivisionError
  /\ calculate_edge_time_and_fuel backwards moscow_kazan 16000
     = Ok (literal (-8) 1, 1944).
Proof.
  intros Hc Hs. split; [|vm_compute; reflexivity].
  rewrite calculate_open by assumption. rewrite Hs.
  unfold effective_speed, wind_multipliers.
  by destruct (headwind e), (fairwind e).
Qed.

Lemma zero_speed_is_a_division_fault_witness :
  calculate_edge_time_and_fuel grounded moscow_kazan 16000
  = Raise ZeroDivisionError.
Proof.
  apply (zero_speed_is_a_division_fault grounded moscow_kazan 16000 eq_refl eq_refl).
Defined.

(** ** Result construction *)

Lemma first_edge_distance_find (es : list Edge) (a b : City) :
  first_edge_distance es a b = distance_km <$> List.find (connects a b) es.
Proof.
  induction es as [|e es IH]; [reflexivity|].
  cbn [first_edge_distance List.find]. unfold connects at 1.
  by destruct (_ || _).
Qed.

Lemma walk_distance_spec (graph : Graph) (path : list City) (total : float) :
  walk_distance graph total path =
  fold_left
    (fun total leg =>
       match List.find (connects (fst leg) (snd leg)) (edges graph) with
       | Some e => fadd total (distance_km e)
       | None => total
       end)
    (legs path) total.
Proof.
  revert total. induction path as [|a [|b rest] IH]; intros total; try reflexivity.
  change (legs (a :: b :: rest)) with ((a, b) :: legs (b :: rest)).
  cbn [fold_left walk_distance fst snd].
  rewrite first_edge_distance_find.
  destruct (List.find (connects a b) (edges graph)); apply IH.
Qed.

Lemma removelast_take {A : Type} (l : list A) :
  removelast l = take (length l - 1) l.
Proof.
  induction l as [|x [|y l] IH]; try reflexivity.
  change (removelast (x :: y :: l)) with (x :: removelast (y :: l)).
  rewrite IH. cbn [length]. replace (S (S (length l)) - 1)%nat with (S (length l)) by lia.
  cbn [take]. do 2 f_equal. lia.
Qed.

(** The two-decimal rounding: the float read from the decimal [n / 100],
    for the integer [n] nearest to a hundred times the value. *)
Lemma round2_spec (x : float) :
  match x with
  | S754_finite s _ _ =>
      exists n, 2 * Z.abs (100 * fnum x - n * fden x) <= fden x
                /\ round2 x = match n with 0 => S754_zero s | _ => literal n 2 end
  | _ => round2 x = x
  end.
Proof.
  destruct x as [s|s| |s m [|p|p]]; try reflexivity.
  - exists (signed s m * 100 * 2 ^ 0). split; [simpl; lia|].
    unfold round2, literal. by destruct (signed s m * 100 * 2 ^ 0).
  - exists (signed s m * 100 * 2 ^ Z.pos p). split; [cbn [fnum fden]; lia|].
    unfold round2, literal. by destruct (signed s m * 100 * 2 ^ Z.pos p).
  - exists (div_half_even (signed s m * 100) (Z.pos (2 ^ p))). split.
    + cbn [fnum fden].
      pose proof (div_half_even_spec (signed s m * 100) (Z.pos (2 ^ p)) ltac:(lia)).
      replace (100 * signed s m) with (signed s m * 100) by lia. assumption.
    + unfold round2, literal. by destruct (div_half_even _ _).
Qed.

Lemma build_result_spec (graph : Graph) (path : list City) (total_time : float)
    (refuel_count : Z) :
  _build_result graph path total_time refuel_count =
    (rounded ← round0 (total_distance_spec graph path);
     Ok (Itinerary (List.map name path) (round2 total_time)
           (refuel_stops_spec path) rounded refuel_count)).
Proof.
  unfold _build_result, total_distance_spec, refuel_stops_spec.
  by rewrite walk_distance_spec, removelast_take.
Qed.

(** C7: when the search succeeds, the itinerary is built from the popped
    target entry: the route is its path, the total time its elapsed time
    rounded to two decimals, the total distance the nearest integer to the
    sum over the legs of the path of the first matching connection, the
    refuel stops the fuel-capable cities of the path but the last, and the
    refuel count the counter of the entry; stops and count are computed
    independently and can disagree. *)
Theorem itinerary_construction (M : pymath) (graph : Graph) (plane : Plane)
    (target_city : City) (st : search_state) (r : result) :
  a_star_step M graph plane target_city st = Ok (inr r) ->
  r <> Error "No path found" ->
  (exists cur rest total_distance,
      heapq.heappop (open_set st) = Some (Ok (cur, rest))
      /\ city_eqb (e_city cur) target_city = true
      /\ r = Itinerary (List.map name (e_path cur)) (round2 (e_g cur))
               (refuel_stops_spec (e_path cur)) total_distance (e_refuels cur)
      /\ round0 (total_distance_spec graph (e_path cur)) = Ok total_distance
      /\ 2 * Z.abs (fnum (total_distance_spec graph (e_path cur))
                    - total_distance * fden (total_distance_spec graph (e_path cur)))
         <= fden (total_distance_spec graph (e_path cur))
      /\ match e_g cur with
         | S754_finite s _ _ =>
             exists n, 2 * Z.abs (100 * fnum (e_g cur) - n * fden (e_g cur))
                         <= fden (e_g cur)
                       /\ round2 (e_g cur)
                          = match n with 0 => S754_zero s | _ => literal n 2 end
         | _ => round2 (e_g cur) = e_g cur
         end)
  /\ (exists path total_time count route time stops distance,
        _build_result Demo.create_test_graph path total_time count
          = Ok (Itinerary route time stops distance count)
        /\ Z.of_nat (length stops) <> count).
Proof.
  intros H Hr. split.
  - unfold a_star_step in H.
    destruct (heapq.heappop (open_set st)) as [[[cur rest]|]|] eqn:Hpop;
      cbn in H; try discriminate; [|inv_ok H; by destruct Hr].
    destruct (city_eqb (e_city cur) target_city) eqn:Hc.
    + bind_inv H as r' Hb. inv_ok H. rewrite build_result_spec in Hb.
      bind_inv Hb as total_distance Hd. inv_ok Hb.
      exists cur, rest, total_distance. repeat split; try assumption.
      * by apply round0_spec.
      * apply round2_spec.
    + inv_bind H. discriminate.
  - exists [Demo.moscow; Demo.sochi], (literal 21 1), 0.
    do 4 eexists. split; [vm_compute; reflexivity|]. cbn. lia.
Qed.

Lemma itinerary_construction_witness :
  exists cur rest,
    heapq.heappop (open_set demo_state1) = Some (Ok (cur, rest))
    /\ e_path cur = [Demo.moscow; Demo.sochi].
Proof.
  destruct (itinerary_construction Demo.libm Demo.create_test_graph Demo.plane
              Demo.sochi demo_state1
              (Itinerary ["Moscow"; "Sochi"] (literal 21 1) ["Moscow"] 1360 0))
    as [(cur & rest & d & Hpop & _) _].
  - vm_compute. reflexivity.
  - discriminate.
  - exists cur, rest. split; [exact Hpop|].
    vm_compute in Hpop. by inv_ok Hpop.
Defined.

(** ** The two error results *)

Lemma heappop_None (heap : list entry) :
  heapq.heappop heap = None <-> heap = [].
Proof.
  unfold heapq.heappop. split; [|by intros ->].
  destruct (last heap) eqn:Hl.
  - by destruct (removelast heap).
  - intros _. by apply last_None.
Qed.

Lemma build_result_is_itinerary (graph : Graph) path total_time count r :
  _build_result graph path total_time count = Ok r ->
  exists route time stops distance, r = Itinerary route time stops distance count.
Proof.
  unfold _build_result. intros H. inv_bind H. inv_ok H. by repeat eexists.
Qed.

(** An iteration answers "No path found" exactly on the empty frontier. *)
Lemma a_star_step_no_path M graph plane target_city st :
  a_star_step M graph plane target_city st = Ok (inr (Error "No path found"))
  <-> open_set st = [].
Proof.
  unfold a_star_step. split.
  - destruct (heapq.heappop (open_set st)) as [[[cur rest]|]|] eqn:Hpop; cbn;
      try discriminate; [|intros _; by apply heappop_None].
    destruct (city_eqb (e_city cur) target_city); intros H.
    + bind_inv H as r Hr. inv_ok H.
      apply build_result_is_itinerary in Hr as (? & ? & ? & ? & ?). discriminate.
    + inv_bind H. discriminate.
  - intros ->. reflexivity.
Qed.

Lemma a_star_step_not_city_error M graph plane target_city st :
  a_star_step M graph plane target_city st <> Ok (inr (Error "City not found")).
Proof.
  unfold a_star_step.
  destruct (heapq.heappop (open_set st)) as [[[cur rest]|]|]; cbn; try discriminate.
  destruct (city_eqb (e_city cur) target_city); intros H.
  - bind_inv H as r Hr. inv_ok H.
    apply build_result_is_itinerary in Hr as (? & ? & ? & ? & ?). discriminate.
  - inv_bind H. discriminate.
Qed.

Lemma a_star_loop_not_city_error M graph plane target_city n : forall st,
  a_star_loop M graph plane n target_city st <> Some (Ok (Error "City not found")).
Proof.
  induction n as [|n IH]; intros st; cbn [a_star_loop]; [discriminate|].
  destruct (a_star_step M graph plane target_city st) as [[st'|r]|e] eqn:Hs;
    [apply IH| |discriminate].
  intros H. inv_ok H. by apply a_star_step_not_city_error in Hs.
Qed.

(** The loop answers "No path found" exactly when it reaches an empty
    frontier. *)
Lemma a_star_loop_no_path M graph plane target_city n : forall st,
  a_star_loop M graph plane n target_city st = Some (Ok (Error "No path found"))
  <-> exists k st', (k < n)%nat
        /\ runs M graph plane target_city k st st' /\ open_set st' = [].
Proof.
  induction n as [|n IH]; intros st; cbn [a_star_loop].
  - split; [discriminate|]. intros (k & _ & Hk & _). lia.
  - destruct (a_star_step M graph plane target_city st) as [[st1|r]|e] eqn:Hs.
    + rewrite IH. split.
      * intros (k & st' & Hk & Hruns & He). exists (S k), st'.
        repeat split; [lia| |assumption]. econstructor; eassumption.
      * intros (k & st' & Hk & Hruns & He).
        inversion Hruns as [|k' ? st1' ? Hs' Hruns']; subst.
        -- apply (a_star_step_no_path M graph plane target_city) in He. congruence.
        -- rewrite Hs in Hs'. inv_ok Hs'. exists k', st'.
           repeat split; [lia|assumption|assumption].
    + split.
      * intros H. inv_ok H. apply a_star_step_no_path in Hs.
        exists 0%nat, st. repeat split; [lia|constructor|assumption].
      * intros (k & st' & Hk & Hruns & He).
        inversion Hruns as [|k' ? st1' ? Hs' Hruns']; subst.
        -- apply (a_star_step_no_path M graph plane target_city) in He. congruence.
        -- congruence.
    + split; [discriminate|].
      intros (k & st' & Hk & Hruns & He).
      inversion Hruns as [|k' ? st1' ? Hs' Hruns']; subst.
      * apply (a_star_step_no_path M graph plane target_city) in He. congruence.
      * congruence.
Qed.

Lemma city_eqb_sym (a b : City) : city_eqb a b = city_eqb b a.
Proof. unfold city_eqb. apply String.eqb_sym. Qed.

(** A frontier holding only the start, whose single connection yields the
    infeasibility sentinel, is exhausted after one expansion. *)
Lemma single_edge_no_path M graph plane start_city target_city e h n :
  edges graph = [e] ->
  city_eqb start_city target_city = false ->
  h_score M plane start_city target_city = Ok h ->
  calculate_edge_time_and_fuel plane e (tank_capacity plane) = Ok (pinf, 0) ->
  a_star_loop M graph plane (S (S n)) target_city
    (mkState [mkEntry (fadd pzero h) pzero start_city (tank_capacity plane)
                [start_city] 0]
       {[ (name start_city, tank_capacity plane) := pzero ]})
  = Some (Ok (Error "No path found")).
Proof.
  intros He Hne Hh Hcalc.
  set (st0 := mkState _ _).
  assert (Hstep : exists v,
             a_star_step M graph plane target_city st0 = Ok (inl (mkState [] v))).
  { unfold a_star_step, st0. cbn [open_set heapq.heappop last removelast].
    cbn [mbind exc_bind e_city]. rewrite Hne.
    unfold get_edges_from_city. rewrite He. cbn [List.filter].
    destruct (city_eqb (city1 e) start_city || city_eqb (city2 e) start_city)
      eqn:Htouch; cbn [relax_all mbind exc_bind]; [|by eexists].
    unfold relax. cbn [e_city e_fuel].
    assert (Hother : exists nc, get_other_city e start_city = Ok nc).
    { unfold get_other_city.
      rewrite (city_eqb_sym start_city (city1 e)), (city_eqb_sym start_city (city2 e)).
      destruct (city_eqb (city1 e) start_city); [by eexists|].
      destruct (city_eqb (city2 e) start_city); [by eexists|discriminate]. }
    destruct Hother as [nc ->]. rewrite Hcalc. cbn. by eexists. }
  destruct Hstep as [v Hstep].
  cbn [a_star_loop]. rewrite Hstep. reflexivity.
Qed.

Lemma closed_is_sentinel (pl : Plane) (e : Edge) (F : Z) :
  closed e = true -> calculate_edge_time_and_fuel pl e F = Ok (pinf, 0).
Proof. unfold calculate_edge_time_and_fuel. by intros ->. Qed.

Lemma short_of_fuel_is_sentinel (pl : Plane) (e : Edge) (F : Z) (cs : float) :
  closed e = false ->
  float_of_Z (cruise_speed pl) = Ok cs ->
  is_zero (effective_speed cs e) = false ->
  gt_Z (fuel_needed pl e) F = true ->
  calculate_edge_time_and_fuel pl e F = Ok (pinf, 0).
Proof.
  intros Hc Hcs Hz Hgt. rewrite calculate_open by assumption.
  rewrite Hcs. cbn [mbind exc_bind]. unfold fdiv. rewrite Hz.
  cbn [mbind exc_bind]. by rewrite Hgt.
Qed.

(** C5: the search answers "City not found" exactly when one of the two
    names is not a key of the topology, and "No path found" exactly when
    the loop reaches an empty frontier; this is the case when the only
    connection is closed and when it needs more fuel than the tank holds. *)
Theorem search_errors (M : pymath) (graph : Graph) (plane : Plane) (n : nat)
    (start_city_name target_city_name : string) :
  (a_star_search M graph plane n start_city_name target_city_name
     = Some (Ok (Error "City not found"))
   <-> cities graph !! start_city_name = None
       \/ cities graph !! target_city_name = None)
  /\ (a_star_search M graph plane n start_city_name target_city_name
        = Some (Ok (Error "No path found"))
      <-> exists start_city target_city st0 k st,
            cities graph !! start_city_name = Some start_city
            /\ cities graph !! target_city_name = Some target_city
            /\ initial_state M plane start_city target_city = Ok st0
            /\ (k < n)%nat
            /\ runs M graph plane target_city k st0 st
            /\ open_set st = [])
  /\ (forall start_city target_city e h,
        cities graph !! start_city_name = Some start_city ->
        cities graph !! target_city_name = Some target_city ->
        city_eqb start_city target_city = false ->
        h_score M plane start_city target_city = Ok h ->
        edges graph = [e] ->
        closed e = true
        \/ (closed e = false
            /\ exists cs, float_of_Z (cruise_speed plane) = Ok cs
                 /\ is_zero (effective_speed cs e) = false
                 /\ gt_Z (fuel_needed plane e) (tank_capacity plane) = true) ->
        (2 <= n)%nat ->
        a_star_search M graph plane n start_city_name target_city_name
          = Some (Ok (Error "No path found"))).
Proof.
  unfold a_star_search. repeat split.
  - destruct (cities graph !! start_city_name) as [sc|]; [|by left].
    destruct (cities graph !! target_city_name) as [tc|]; [|by right].
    destruct (initial_state M plane sc tc) as [st0|e]; [|discriminate].
    intros H. by apply a_star_loop_not_city_error in H.
  - intros [H|H]; rewrite H; [reflexivity|].
    by destruct (cities graph !! start_city_name).
  - destruct (cities graph !! start_city_name) as [sc|]; [|discriminate].
    destruct (cities graph !! target_city_name) as [tc|]; [|discriminate].
    destruct (initial_state M plane sc tc) as [st0|e] eqn:Hinit; [|discriminate].
    intros H. apply a_star_loop_no_path in H as (k & st & Hk & Hruns & He).
    exists sc, tc, st0, k, st. by repeat split.
  - intros (sc & tc & st0 & k & st & -> & -> & -> & Hk & Hruns & He).
    apply a_star_loop_no_path. by exists k, st.
  - intros sc tc e h -> -> Hne Hh He Hcase Hn.
    unfold initial_state. rewrite Hh. cbn [mbind exc_bind].
    destruct n as [|[|n]]; try lia.
    eapply single_edge_no_path; try eassumption.
    destruct Hcase as [Hc|(Hc & cs & Hcs & Hz & Hgt)].
    + by apply closed_is_sentinel.
    + by eapply short_of_fuel_is_sentinel.
Qed.

Lemma search_errors_witness :
  a_star_search Demo.libm closed_graph Demo.plane 2 "Moscow" "Sochi"
    = Some (Ok (Error "No path found"))
  /\ a_star_search Demo.libm open_graph small_tank 2 "Moscow" "Sochi"
    = Some (Ok (Error "No path found"))
  /\ a_star_search Demo.libm open_graph small_tank 2 "Moscow" "Adler"
    = Some (Ok (Error "City not found")).
Proof.
  split; [|split].
  - eapply (search_errors Demo.libm closed_graph Demo.plane 2 "Moscow" "Sochi");
      [reflexivity|reflexivity|reflexivity|vm_compute; reflexivity|reflexivity
      |by left|lia].
  - eapply (search_errors Demo.libm open_graph small_tank 2 "Moscow" "Sochi");
      [reflexivity|reflexivity|reflexivity|vm_compute; reflexivity|reflexivity
      | |lia].
    right. split; [reflexivity|]. eexists.
    split; [vm_compute; reflexivity|]. split; vm_compute; reflexivity.
  - apply (search_errors Demo.libm open_graph small_tank 2 "Moscow" "Adler").
    right. reflexivity.
Defined.

(** ** Small frontiers *)

Lemma fltb_feqb (x y : float) : fltb x y = true -> feqb x y = false.
Proof. unfold fltb, feqb, SFltb, SFeqb. by destruct (SFcompare x y) as [[| |]|]. Qed.

(** Entries that differ in [g] can always be compared. *)
Lemma entry_lt_g (x y : entry) :
  feqb (e_g x) (e_g y) = false -> exists b, entry_lt x y = Ok b.
Proof.
  intros Hg. unfold entry_lt. rewrite Hg.
  destruct (feqb (e_f x) (e_f y)); by eexists.
Qed.

Lemma entry_lt_f (x y : entry) :
  fltb (e_f x) (e_f y) = true -> entry_lt x y = Ok true.
Proof.
  intros Hf. unfold entry_lt. rewrite (fltb_feqb _ _ Hf). cbn [negb]. by rewrite Hf.
Qed.

Lemma heappush_2 (x y : entry) (b : bool) :
  entry_lt y x = Ok b ->
  heapq.heappush [x] y = Ok (if b then [y; x] else [x; y]).
Proof. intros H. cbv -[entry_lt]. rewrite H. by destruct b. Qed.

Lemma heappush_3 (a b z : entry) :
  entry_lt z a = Ok true -> heapq.heappush [a; b] z = Ok [z; b; a].
Proof. intros H. cbv -[entry_lt]. by rewrite H. Qed.

Lemma heappop_3 (z b a : entry) (c : bool) :
  entry_lt a b = Ok c ->
  heapq.heappop [z; b; a] = Some (Ok (z, if c then [a; b] else [b; a])).
Proof. intros H. cbv -[entry_lt]. rewrite H. by destruct c. Qed.

(** ** The demonstration scenario *)

Lemma beyond_direct_range (d : Z) :
  1000 <= d <= 3000 -> beyond_direct d = true.
Proof.
  intros Hd.
  assert (Hall : forallb (fun k => beyond_direct (1000 + Z.of_nat k))
                   (seq 0 (Z.to_nat 2001)) = true) by (vm_compute; reflexivity).
  rewrite forallb_forall in Hall.
  specialize (Hall (Z.to_nat (d - 1000))).
  replace (1000 + Z.of_nat (Z.to_nat (d - 1000))) with d in Hall by lia.
  apply Hall. apply in_seq. lia.
Qed.

Lemma demo_heuristic (M : pymath) (c : City) (d : Z) :
  haversine_distance M c Demo.sochi = Ok d -> 1000 <= d <= 3000 ->
  exists h, h_score M Demo.plane c Demo.sochi = Ok h
            /\ fltb (literal 21 1) (fadd (literal 13 1) h) = true
            /\ fltb (literal 21 1) (fadd (literal 14 1) h) = true.
Proof.
  intros Hd Hr. apply beyond_direct_range in Hr. unfold beyond_direct in Hr.
  unfold h_score. rewrite Hd. cbn [mbind exc_bind cruise_speed Demo.plane].
  destruct (int_true_div d 841) as [h|]; [|discriminate].
  apply andb_true_iff in Hr. by exists h.
Qed.

(** C8: on the demonstration topology, with tank 16000 l, consumption
    2.7 l/km and cruise speed 841 km/h, the search from Moscow to Sochi
    returns the direct route over the headwind edge, 2.1 hours, 1360 km and
    no refuel, on every platform whose haversine distances to Sochi are
    0 km from Sochi itself, between 1000 and 3000 km from St Petersburg and
    from Kazan, and at most 3000 km from Moscow. *)
Theorem demo_search_direct_route (M : pymath) (n : nat) (d_moscow d_spb d_kazan : Z) :
  haversine_distance M Demo.moscow Demo.sochi = Ok d_moscow ->
  haversine_distance M Demo.spb Demo.sochi = Ok d_spb ->
  haversine_distance M Demo.kazan Demo.sochi = Ok d_kazan ->
  haversine_distance M Demo.sochi Demo.sochi = Ok 0 ->
  0 <= d_moscow <= 3000 ->
  1000 <= d_spb <= 3000 ->
  1000 <= d_kazan <= 3000 ->
  (2 <= n)%nat ->
  a_star_search M Demo.create_test_graph Demo.plane n "Moscow" "Sochi"
  = Some (Ok (Itinerary ["Moscow"; "Sochi"] (literal 21 1) ["Moscow"] 1360 0)).
Proof.
  intros Hm Hs Hk Hz Rm Rs Rk Hn.
  destruct (demo_heuristic M _ _ Hs Rs) as (h1 & Hh1 & Hs1 & _).
  destruct (demo_heuristic M _ _ Hk Rk) as (h2 & Hh2 & _ & Hk2).
  assert (Hh3 : h_score M Demo.plane Demo.sochi Demo.sochi = Ok pzero)
    by (unfold h_score; by rewrite Hz).
  assert (Hh0 : exists h0, h_score M Demo.plane Demo.moscow Demo.sochi = Ok h0).
  { unfold h_score. rewrite Hm. apply int_true_div_total; [discriminate|].
    pose proof (Zdigits2_mono d_moscow 3000 ltac:(lia)) as Hd.
    cbn [cruise_speed Demo.plane]. simpl Zdigits2 in *. lia. }
  destruct Hh0 as [h0 Hh0].
  unfold a_star_search.
  change (cities Demo.create_test_graph !! "Moscow") with (Some Demo.moscow).
  change (cities Demo.create_test_graph !! "Sochi") with (Some Demo.sochi).
  cbv beta iota. unfold initial_state. rewrite Hh0. cbn [mbind exc_bind].
  destruct n as [|[|n]]; try lia.
  set (x1 := mkEntry (fadd (literal 13 1) h1) (literal 13 1) Demo.spb 16000
               [Demo.moscow; Demo.spb] 1).
  set (x2 := mkEntry (fadd (literal 14 1) h2) (literal 14 1) Demo.kazan 16000
               [Demo.moscow; Demo.kazan] 1).
  set (x3 := mkEntry (fadd (literal 21 1) pzero) (literal 21 1) Demo.sochi 11594
               [Demo.moscow; Demo.sochi] 0).
  destruct (entry_lt_g x2 x1 eq_refl) as [b Hb].
  assert (H31 : entry_lt x3 x1 = Ok true) by (apply entry_lt_f; exact Hs1).
  assert (H32 : entry_lt x3 x2 = Ok true) by (apply entry_lt_f; exact Hk2).
  assert (Hstep1 : exists v,
             a_star_step M Demo.create_test_graph Demo.plane Demo.sochi
               (mkState [mkEntry (fadd pzero h0) pzero Demo.moscow
                           (tank_capacity Demo.plane) [Demo.moscow] 0]
                  {[ (name Demo.moscow, tank_capacity Demo.plane) := pzero ]})
             = Ok (inl (mkState (if b then [x3; x1; x2] else [x3; x2; x1]) v))).
  { unfold a_star_step.
    cbn [open_set heapq.heappop last removelast mbind exc_bind e_city].
    change (city_eqb Demo.moscow Demo.sochi) with false. cbv iota.
    change (get_edges_from_city Demo.create_test_graph Demo.moscow)
      with [mkEdge Demo.moscow Demo.spb (Demo.km 650) false true false;
            mkEdge Demo.moscow Demo.kazan (Demo.km 720) false false false;
            mkEdge Demo.moscow Demo.sochi (Demo.km 1360) true false false].
    cbn [relax_all].
    rewrite (relax_forward M Demo.plane Demo.sochi _ _ _ Demo.spb (literal 8 1) 1579
               (literal 13 1) 16000 1);
      [|vm_compute; reflexivity ..].
    rewrite Hh1. cbn [mbind exc_bind open_set visited].
    change (heapq.heappush [] ?x) with (Ok [x]). cbn [mbind exc_bind e_path app].
    rewrite (relax_forward M Demo.plane Demo.sochi _ _ _ Demo.kazan (literal 9 1) 1944
               (literal 14 1) 16000 1);
      [|vm_compute; reflexivity ..].
    rewrite Hh2. cbn [mbind exc_bind open_set visited e_path app].
    fold x1 x2. rewrite (heappush_2 x1 x2 b Hb). cbn [mbind exc_bind].
    rewrite (relax_forward M Demo.plane Demo.sochi _ _ _ Demo.sochi (literal 21 1) 4406
               (literal 21 1) 11594 0);
      [|vm_compute; reflexivity ..].
    rewrite Hh3. cbn [mbind exc_bind open_set visited e_path app].
    fold x3. destruct b.
    - rewrite (heappush_3 x2 x1 x3 H32). cbn [mbind exc_bind]. by eexists.
    - rewrite (heappush_3 x1 x2 x3 H31). cbn [mbind exc_bind]. by eexists. }
  destruct Hstep1 as [v Hstep1].
  cbn [a_star_loop]. rewrite Hstep1.
  assert (Hstep2 : a_star_step M Demo.create_test_graph Demo.plane Demo.sochi
                     (mkState (if b then [x3; x1; x2] else [x3; x2; x1]) v)
                   = Ok (inr (Itinerary ["Moscow"; "Sochi"] (literal 21 1)
                                ["Moscow"] 1360 0))).
  { unfold a_star_step. cbn [open_set].
    destruct (entry_lt_g x2 x1 eq_refl) as [c2 Hc2].
    destruct (entry_lt_g x1 x2 eq_refl) as [c1 Hc1].
    destruct b;
      [rewrite (heappop_3 x3 x1 x2 c2 Hc2)|rewrite (heappop_3 x3 x2 x1 c1 Hc1)];
      cbn [mbind exc_bind]; reflexivity. }
  rewrite Hstep2. reflexivity.
Qed.

Lemma demo_search_direct_route_witness :
  a_star_search Demo.libm Demo.create_test_graph Demo.plane 2 "Moscow" "Sochi"
  = Some (Ok (Itinerary ["Moscow"; "Sochi"] (literal 21 1) ["Moscow"] 1360 0)).
Proof.
  apply (demo_search_direct_route Demo.libm 2 1362 1925 1516);
    [vm_compute; reflexivity|vm_compute; reflexivity|vm_compute; reflexivity
    |vm_compute; reflexivity|lia|lia|lia|lia].
Defined.

(** ** Ties in the frontier *)

(** Two entries with equal [f] and [g] and different cities cannot be
    compared. *)
Lemma entry_lt_tie (x y : entry) :
  feqb (e_f x) (e_f y) = true -> feqb (e_g x) (e_g y) = true ->
  city_eqb (e_city x) (e_city y) = false ->
  entry_lt x y = Raise TypeError.
Proof. unfold entry_lt. by intros -> -> ->. Qed.

Lemma a_star_loop_raise M graph plane target_city st e n :
  a_star_step M graph plane target_city st = Raise e ->
  a_star_loop M graph plane (S n) target_city st = Some (Raise e).
Proof. intros H. cbn [a_star_loop]. by rewrite H. Qed.

Lemma feqb_refl (x : float) : is_nan x = false -> feqb x x = true.
Proof.
  destruct x as [s|[|]| |[|] m e]; try discriminate; try reflexivity; intros _;
    unfold feqb, SFeqb, SFcompare; rewrite Z.compare_refl, Pos.compare_cont_refl;
    reflexivity.
Qed.

Lemma int_true_div_finite (a b : Z) (r : float) :
  int_true_div a b = Ok r -> is_finite r = true.
Proof.
  unfold int_true_div.
  destruct b as [|pb|pb]; try discriminate; destruct a as [|pa|pa];
    try (intros H; by inv_ok H).
  all: cbn [raw_of_Z SFdiv].
  all: destruct (SFdiv_core_binary prec emax (Z.pos pa) 0 (Z.pos pb) 0)
         as [[q e'] l] eqn:Hcore.
  all: apply SFdiv_core_binary_bounds in Hcore as (Hq & _ & _).
  all: match goal with
       | |- context [binary_round_aux prec emax ?s ?q0 ?e0 ?l0] =>
           pose proof (binary_round_aux_not_nan prec emax s q0 e0 l0 Hq) as Hnan;
           destruct (binary_round_aux prec emax s q0 e0 l0)
       end.
  all: cbn [is_inf]; intros H; try discriminate; try by inv_ok H.
Qed.

Lemma binary_normalize_not_nan (m e : Z) (s : bool) :
  is_nan (binary_normalize prec emax m e s) = false.
Proof.
  destruct m as [|p|p]; [reflexivity| |]; cbn [binary_normalize];
    unfold binary_round; destruct (shl_align _ _ _) as [mz ez];
    match goal with
    | |- context [binary_round_aux prec emax ?s ?q0 ?e0 ?l0] =>
        pose proof (binary_round_aux_not_nan prec emax s q0 e0 l0 ltac:(lia));
        by destruct (binary_round_aux prec emax s q0 e0 l0)
    end.
Qed.

(** The sum of two finite floats is a number. *)
Lemma fadd_finite_not_nan (x y : float) :
  is_finite x = true -> is_finite y = true -> is_nan (fadd x y) = false.
Proof.
  destruct x as [[|]| | |sx mx ex]; try discriminate;
    destruct y as [[|]| | |sy my ey]; try discriminate; intros _ _;
    try reflexivity.
  apply binary_normalize_not_nan.
Qed.

Lemma tie_step (M : pymath) (f0 : float) :
  exists e,
    a_star_step M tie_graph Demo.plane Demo.sochi
      (mkState [mkEntry f0 pzero Demo.moscow 16000 [Demo.moscow] 0]
         {[ ("Moscow"%string, 16000) := pzero ]})
    = Raise e.
Proof.
  unfold a_star_step. cbn [open_set heapq.heappop last removelast mbind exc_bind e_city].
  change (city_eqb Demo.moscow Demo.sochi) with false. cbv iota.
  change (get_edges_from_city tie_graph Demo.moscow)
    with [mkEdge Demo.moscow Demo.kazan (Demo.km 720) false false false;
          mkEdge Demo.moscow kazan_airport (Demo.km 720) false false false].
  cbn [relax_all].
  rewrite (relax_forward M Demo.plane Demo.sochi _ _ _ Demo.kazan (literal 9 1) 1944
             (literal 14 1) 16000 1);
    [|vm_compute; reflexivity ..].
  destruct (h_score M Demo.plane Demo.kazan Demo.sochi) as [h|e] eqn:Hh;
    [|by exists e].
  cbn [mbind exc_bind open_set visited].
  change (heapq.heappush [] ?x) with (Ok [x]). cbn [mbind exc_bind].
  rewrite (relax_forward M Demo.plane Demo.sochi _ _ _ kazan_airport (literal 9 1) 1944
             (literal 14 1) 16000 1);
    [|vm_compute; reflexivity ..].
  change (h_score M Demo.plane kazan_airport Demo.sochi)
    with (h_score M Demo.plane Demo.kazan Demo.sochi).
  rewrite Hh. cbn [mbind exc_bind open_set].
  exists TypeError.
  unfold heapq.heappush. cbn [length app heapq.siftdown Nat.ltb Nat.leb].
  change ((1 - 1) / 2)%nat with 0%nat. cbn [lookup list_lookup].
  rewrite entry_lt_tie; [reflexivity| |reflexivity|reflexivity].
  cbn [e_f]. apply feqb_refl. apply fadd_finite_not_nan; [reflexivity|].
  unfold h_score in Hh. bind_inv Hh as km Hkm.
  by apply int_true_div_finite in Hh.
Qed.

(** C1 (the code departs from it): the search does not always return a
    result.  When two frontier entries tie on [f] and on [g] the tuple
    comparison of the heap reaches the cities, which have no order: on the
    topology with two cities at the coordinates of Kazan the search raises
    on every platform, and raises [TypeError] where the heuristic
    evaluates.  With a cruise speed of zero the heuristic of line 120
    raises [ZeroDivisionError]. *)
Theorem search_raises_on_tie (M : pymath) (n : nat) :
  (exists e,
      a_star_search M tie_graph Demo.plane (S n) "Moscow" "Sochi"
      = Some (Raise e))
  /\ a_star_search Demo.libm tie_graph Demo.plane (S n) "Moscow" "Sochi"
     = Some (Raise TypeError)
  /\ a_star_search Demo.libm Demo.create_test_graph grounded n "Moscow" "Sochi"
     = Some (Raise ZeroDivisionError).
Proof.
  split; [|split].
  - unfold a_star_search.
    change (cities tie_graph !! "Moscow") with (Some Demo.moscow).
    change (cities tie_graph !! "Sochi") with (Some Demo.sochi).
    cbv beta iota. unfold initial_state.
    destruct (h_score M Demo.plane Demo.moscow Demo.sochi) as [h|e];
      [|by exists e].
    cbn [mbind exc_bind].
    destruct (tie_step M (fadd pzero h)) as [e He]. exists e.
    by apply a_star_loop_raise.
  - unfold a_star_search.
    change (cities tie_graph !! "Moscow") with (Some Demo.moscow).
    change (cities tie_graph !! "Sochi") with (Some Demo.sochi).
    cbv beta iota.
    replace (initial_state Demo.libm Demo.plane Demo.moscow Demo.sochi)
      with (Ok demo_state0) by (vm_compute; reflexivity).
    apply a_star_loop_raise. vm_compute. reflexivity.
  - unfold a_star_search.
    change (cities Demo.create_test_graph !! "Moscow") with (Some Demo.moscow).
    change (cities Demo.create_test_graph !! "Sochi") with (Some Demo.sochi).
    cbv beta iota.
    replace (initial_state Demo.libm grounded Demo.moscow Demo.sochi)
      with (@Raise search_state ZeroDivisionError) by (vm_compute; reflexivity).
    reflexivity.
Qed.

(** ** The cost of an open edge *)








(** * Further properties of the planner *)

(** ** Cities, connections and the topology *)

Lemma city_eqb_refl (c : City) : city_eqb c c = true.
Proof. unfold city_eqb. apply String.eqb_refl. Qed.

Lemma city_eqb_name (a b : City) : city_eqb a b = true <-> name a = name b.
Proof. unfold city_eqb. apply String.eqb_eq. Qed.

Lemma city_eqb_trans (a b c : City) :
  city_eqb a b = true -> city_eqb b c = true -> city_eqb a c = true.
Proof. rewrite !city_eqb_name. congruence. Qed.

(** X1: [get_other_city] raises [ValueError] exactly when the city is
    neither endpoint (by name); otherwise it returns an endpoint of the
    connection, and asking for the other city of the answer leads back to
    a city of the same name. *)
Theorem get_other_city_round_trip (e : Edge) (c : City) :
  (get_other_city e c = Raise ValueError
   <-> city_eqb c (city1 e) = false /\ city_eqb c (city2 e) = false)
  /\ (forall d, get_other_city e c = Ok d ->
        (d = city1 e \/ d = city2 e)
        /\ exists c', get_other_city e d = Ok c' /\ city_eqb c' c = true).
Proof.
  unfold get_other_city. split.
  - destruct (city_eqb c (city1 e)); [split; [discriminate|by intros []]|].
    destruct (city_eqb c (city2 e)); [split; [discriminate|by intros []]|].
    by split.
  - intros d H.
    destruct (city_eqb c (city1 e)) eqn:H1.
    + inv_ok H. split; [by right|]. apply city_eqb_name in H1.
      destruct (city_eqb (city2 e) (city1 e)) eqn:H21.
      * exists (city2 e). split; [reflexivity|].
        apply city_eqb_name in H21. apply city_eqb_name. congruence.
      * rewrite city_eqb_refl. exists (city1 e). split; [reflexivity|].
        apply city_eqb_name. congruence.
    + destruct (city_eqb c (city2 e)) eqn:H2; [|discriminate].
      inv_ok H. split; [by left|]. rewrite city_eqb_refl.
      exists (city2 e). split; [reflexivity|]. by rewrite city_eqb_sym.
Qed.

(** X2: [get_edges_from_city] returns, in declaration order, exactly the
    connections with the city (by name) as an endpoint; on each of them
    [get_other_city] succeeds, so the [ValueError] of line 36 cannot occur
    in the loop of the search. *)
Theorem edges_from_city_touch (g : Graph) (c : City) :
  (forall e, In e (get_edges_from_city g c) <-> In e (edges g) /\ touches c e = true)
  /\ sublist (get_edges_from_city g c) (edges g)
  /\ (forall e, In e (get_edges_from_city g c) ->
        exists d, get_other_city e c = Ok d /\ (d = city1 e \/ d = city2 e))
  /\ (forall c', city_eqb c c' = true ->
        get_edges_from_city g c' = get_edges_from_city g c).
Proof.
  unfold get_edges_from_city. split; [|split; [|split]].
  - intros e. apply filter_In.
  - induction (edges g) as [|e es IH]; [constructor|].
    cbn [List.filter]. destruct (_ || _); by constructor.
  - intros e He. apply filter_In in He as [_ Ht].
    unfold get_other_city.
    rewrite (city_eqb_sym c (city1 e)), (city_eqb_sym c (city2 e)).
    destruct (city_eqb (city1 e) c); [exists (city2 e); by split; [|right]|].
    destruct (city_eqb (city2 e) c); [exists (city1 e); by split; [|left]|].
    discriminate.
  - intros c' Hc. apply city_eqb_name in Hc. unfold city_eqb. by rewrite Hc.
Qed.

(** X3: [add_city] stores the city under its name, the last write on a
    name wins and the other names keep their city; [add_edge] appends at
    the end without looking at the cities, so that the connections of a
    city grow by the new one exactly when it touches the city. *)
Theorem graph_building (g : Graph) (c : City) (e : Edge) :
  cities (add_city g c) !! name c = Some c
  /\ (forall k, k <> name c -> cities (add_city g c) !! k = cities g !! k)
  /\ (forall c', name c' = name c -> add_city (add_city g c) c' = add_city g c')
  /\ edges (add_city g c) = edges g
  /\ cities (add_edge g e) = cities g
  /\ edges (add_edge g e) = edges g ++ [e]
  /\ (forall x, get_edges_from_city (add_edge g e) x
                = get_edges_from_city g x ++ (if touches x e then [e] else [])).
Proof.
  unfold add_city, add_edge. cbn [cities edges].
  split; [apply lookup_insert_eq|].
  split; [intros k Hk; by apply lookup_insert_ne|].
  split; [intros c' ->; by rewrite insert_insert_eq|].
  do 3 (split; [reflexivity|]).
  intros x. unfold get_edges_from_city, touches. cbn [edges].
  rewrite List.filter_app. cbn [List.filter]. by destruct (_ || _).
Qed.

(** ** What the search reads of the topology *)

Lemma walk_distance_edges (g g' : Graph) (path : list City) (total : float) :
  edges g = edges g' -> walk_distance g total path = walk_distance g' total path.
Proof. intros He. by rewrite !walk_distance_spec, He. Qed.

Lemma a_star_step_edges M (g g' : Graph) plane target_city st :
  edges g = edges g' ->
  a_star_step M g plane target_city st = a_star_step M g' plane target_city st.
Proof.
  intros He. unfold a_star_step.
  destruct (heapq.heappop (open_set st)) as [[[cur rest]|]|]; try reflexivity.
  cbn [mbind exc_bind]. destruct (city_eqb (e_city cur) target_city).
  - unfold _build_result. by rewrite (walk_distance_edges g g' _ _ He).
  - unfold get_edges_from_city. by rewrite He.
Qed.

Lemma a_star_loop_edges M (g g' : Graph) plane target_city n : forall st,
  edges g = edges g' ->
  a_star_loop M g plane n target_city st = a_star_loop M g' plane n target_city st.
Proof.
  induction n as [|n IH]; intros st He; [reflexivity|].
  cbn [a_star_loop]. rewrite (a_star_step_edges M g g' _ _ _ He).
  destruct (a_star_step M g' plane target_city st) as [[st'|r]|e]; try reflexivity.
  by apply IH.
Qed.

(** X4: the search reads the dictionary of cities for the two names only:
    two topologies with the same connections and the same cities under the
    start and the target name give the same answer, whatever other cities
    are declared.  Cities that were never added are traversed through the
    connections that mention them. *)
Theorem search_reads_two_names (M : pymath) (g g' : Graph) (plane : Plane)
    (n : nat) (start_city_name target_city_name : string) :
  edges g = edges g' ->
  cities g !! start_city_name = cities g' !! start_city_name ->
  cities g !! target_city_name = cities g' !! target_city_name ->
  a_star_search M g plane n start_city_name target_city_name
  = a_star_search M g' plane n start_city_name target_city_name.
Proof.
  intros He Hs Ht. unfold a_star_search. rewrite <- Hs, <- Ht.
  destruct (cities g !! start_city_name) as [sc|]; [|reflexivity].
  destruct (cities g !! target_city_name) as [tc|]; [|reflexivity].
  destruct (initial_state M plane sc tc); [|reflexivity].
  by apply a_star_loop_edges.
Qed.

Lemma search_reads_two_names_witness :
  a_star_search Demo.libm Demo.create_test_graph Demo.plane 2 "Moscow" "Sochi"
  = a_star_search Demo.libm
      (only_cities Demo.create_test_graph Demo.moscow Demo.sochi)
      Demo.plane 2 "Moscow" "Sochi".
Proof.
  apply (search_reads_two_names Demo.libm Demo.create_test_graph
           (only_cities Demo.create_test_graph Demo.moscow Demo.sochi));
    reflexivity.
Defined.

(** X5: a search from a city to itself answers at the first iteration with
    the route made of that city alone, no time, no distance, no refuel and
    no refuel stop, whatever the connections are. *)
Theorem search_to_itself (M : pymath) (g : Graph) (plane : Plane) (n : nat)
    (city_name : string) (c : City) (h : float) :
  cities g !! city_name = Some c ->
  h_score M plane c c = Ok h ->
  a_star_search M g plane (S n) city_name city_name
  = Some (Ok (Itinerary [name c] pzero [] 0 0)).
Proof.
  intros Hc Hh. unfold a_star_search. rewrite Hc.
  unfold initial_state. rewrite Hh. cbn [mbind exc_bind a_star_loop].
  unfold a_star_step. cbn [open_set heapq.heappop last removelast mbind exc_bind e_city].
  rewrite city_eqb_refl. reflexivity.
Qed.

Lemma search_to_itself_witness :
  a_star_search Demo.libm Demo.create_test_graph Demo.plane 1 "Sochi" "Sochi"
  = Some (Ok (Itinerary ["Sochi"] pzero [] 0 0)).
Proof.
  apply (search_to_itself Demo.libm Demo.create_test_graph Demo.plane 0 "Sochi"
           Demo.sochi pzero); [reflexivity|vm_compute; reflexivity].
Defined.

(** X6: with a cruise speed of zero every search between two declared
    cities raises, at the heuristic of line 120, before the loop starts:
    [ZeroDivisionError] when the distance evaluates. *)
Theorem zero_cruise_speed_search_raises (M : pymath) (g : Graph) (plane : Plane)
    (n : nat) (start_city_name target_city_name : string) (sc tc : City) :
  cruise_speed plane = 0 ->
  cities g !! start_city_name = Some sc ->
  cities g !! target_city_name = Some tc ->
  (exists e, a_star_search M g plane n start_city_name target_city_name
             = Some (Raise e))
  /\ (forall d, haversine_distance M sc tc = Ok d ->
        a_star_search M g plane n start_city_name target_city_name
        = Some (Raise ZeroDivisionError)).
Proof.
  intros Hz Hs Ht. unfold a_star_search, initial_state, h_score.
  rewrite Hs, Ht, Hz. split.
  - destruct (haversine_distance M sc tc) as [d|e]; by eexists.
  - by intros d ->.
Qed.

Lemma zero_cruise_speed_search_raises_witness :
  a_star_search Demo.libm Demo.create_test_graph grounded 3 "Moscow" "Sochi"
  = Some (Raise ZeroDivisionError).
Proof.
  apply (proj2 (zero_cruise_speed_search_raises Demo.libm Demo.create_test_graph
                  grounded 3 "Moscow" "Sochi" Demo.moscow Demo.sochi
                  eq_refl eq_refl eq_refl) 1362).
  vm_compute. reflexivity.
Defined.

(** ** The sentinel of the evaluator *)

(** X7: whenever the evaluator returns, its time is the sentinel [inf]
    exactly when the connection is closed or needs more fuel than there
    is, and then the fuel is 0; the time of a usable connection is a finite
    number, so the test [time_needed == float('inf')] of the search tells
    the two apart. *)
Theorem sentinel_is_unambiguous (pl : Plane) (e : Edge) (current_fuel : Z)
    (time : float) (fuel : Z) :
  calculate_edge_time_and_fuel pl e current_fuel = Ok (time, fuel) ->
  (feqb time pinf = true
   <-> closed e = true \/ gt_Z (fuel_needed pl e) current_fuel = true)
  /\ (feqb time pinf = true -> time = pinf /\ fuel = 0)
  /\ (feqb time pinf = false -> is_finite time = true).
Proof.
  intros H.
  destruct (closed e) eqn:Hc.
  - unfold calculate_edge_time_and_fuel in H. rewrite Hc in H. inv_ok H.
    split; [split; [by left|reflexivity]|]. by split.
  - rewrite calculate_open in H by assumption.
    inv_bind H. inv_bind H.
    destruct (gt_Z (fuel_needed pl e) current_fuel) eqn:Hgt.
    + inv_ok H. split; [split; [by right|reflexivity]|]. by split.
    + bind_inv H as tenths Hceil. bind_inv H as t Hdiv. inv_bind H. inv_ok H.
      pose proof (int_true_div_finite _ _ _ Hdiv) as Hfin.
      assert (Hne : feqb time pinf = false) by (by destruct time as [| | |[|]]).
      rewrite Hne. split; [split; [discriminate|by intros [|]]|].
      by split.
Qed.

Lemma sentinel_is_unambiguous_witness :
  feqb (literal 9 1) pinf = false /\ is_finite (literal 9 1) = true.
Proof.
  destruct (sentinel_is_unambiguous Demo.plane moscow_kazan 16000 (literal 9 1) 1944)
    as (Hiff & _ & Hfin); [vm_compute; reflexivity|].
  split; [reflexivity|]. apply Hfin. reflexivity.
Defined.

(** ** From the answer back to the frontier *)

Lemma a_star_loop_success M g plane start_city target_city n : forall st r,
  reachable M g plane start_city target_city st ->
  a_star_loop M g plane n target_city st = Some (Ok r) ->
  exists st', reachable M g plane start_city target_city st'
              /\ a_star_step M g plane target_city st' = Ok (inr r).
Proof.
  induction n as [|n IH]; intros st r Hreach H; cbn [a_star_loop] in H;
    [discriminate|].
  destruct (a_star_step M g plane target_city st) as [[st1|r1]|e] eqn:Hs;
    try discriminate.
  - eapply IH; [|exact H]. econstructor; eassumption.
  - inv_ok H. by exists st.
Qed.

(** An itinerary is built from a frontier entry at the target, which has
    every property that the frontier keeps. *)
Lemma itinerary_entry M g plane n start_city_name target_city_name sc tc
    (P : entry -> Prop) route time stops distance count :
  (forall h, h_score M plane sc tc = Ok h ->
             P (mkEntry (fadd pzero h) pzero sc (tank_capacity plane) [sc] 0)) ->
  (forall cur edge next_city time_needed fuel_consumed new_g new_fuel
          new_refuel_count h,
      P cur -> In edge (edges g) ->
      get_other_city edge (e_city cur) = Ok next_city ->
      calculate_edge_time_and_fuel plane edge (e_fuel cur)
        = Ok (time_needed, fuel_consumed) ->
      feqb time_needed pinf = false ->
      arrive plane cur next_city time_needed fuel_consumed
        = (new_g, new_fuel, new_refuel_count) ->
      h_score M plane next_city tc = Ok h ->
      P (mkEntry (fadd new_g h) new_g next_city new_fuel
           (e_path cur ++ [next_city]) new_refuel_count)) ->
  cities g !! start_city_name = Some sc ->
  cities g !! target_city_name = Some tc ->
  a_star_search M g plane n start_city_name target_city_name
    = Some (Ok (Itinerary route time stops distance count)) ->
  exists cur,
    P cur /\ city_eqb (e_city cur) tc = true
    /\ _build_result g (e_path cur) (e_g cur) (e_refuels cur)
       = Ok (Itinerary route time stops distance count).
Proof.
  intros Hstart Hpush Hs Ht H. unfold a_star_search in H. rewrite Hs, Ht in H.
  destruct (initial_state M plane sc tc) as [st0|] eqn:Hinit; [|discriminate].
  apply (a_star_loop_success M g plane sc tc) in H as (st' & Hreach & Hstep);
    [|by constructor].
  pose proof (frontier_invariant M g plane sc tc P Hstart Hpush st' Hreach) as HF.
  unfold a_star_step in Hstep.
  destruct (heapq.heappop (open_set st')) as [[[cur rest]|]|] eqn:Hpop;
    cbn [mbind exc_bind] in Hstep; try discriminate.
  apply (heappop_Forall P) in Hpop as [Hcur _]; [|assumption].
  destruct (city_eqb (e_city cur) tc) eqn:Hc.
  - bind_inv Hstep as r Hr. inv_ok Hstep. by exists cur.
  - inv_bind Hstep. discriminate.
Qed.

(** ** The route is a walk *)

Lemma legs_snoc (path : list City) (l c : City) :
  last path = Some l -> legs (path ++ [c]) = legs path ++ [(l, c)].
Proof.
  induction path as [|a [|b rest] IH]; intros Hl; [discriminate| |].
  - by inv_ok Hl.
  - change (legs ((a :: b :: rest) ++ [c]))
      with ((a, b) :: legs ((b :: rest) ++ [c])).
    change (legs (a :: b :: rest)) with ((a, b) :: legs (b :: rest)).
    rewrite IH by exact Hl. reflexivity.
Qed.

Lemma connects_other (e : Edge) (c d : City) :
  get_other_city e c = Ok d -> connects c d e = true.
Proof.
  unfold get_other_city, connects. intros H.
  destruct (city_eqb c (city1 e)) eqn:H1.
  - inv_ok H. rewrite (city_eqb_sym (city1 e) c), H1, city_eqb_refl. reflexivity.
  - destruct (city_eqb c (city2 e)) eqn:H2; [|discriminate]. inv_ok H.
    rewrite (city_eqb_sym (city2 e) c), H2, city_eqb_refl.
    by rewrite orb_true_r.
Qed.

Lemma flown_found (g : Graph) (leg : City * City) :
  flown g leg ->
  exists e, List.find (connects (fst leg) (snd leg)) (edges g) = Some e.
Proof.
  intros (e & Hin & _ & Hc).
  destruct (List.find (connects (fst leg) (snd leg)) (edges g)) as [e'|] eqn:Hf;
    [by exists e'|].
  pose proof (find_none _ _ Hf e Hin). congruence.
Qed.

(** X8: the route of an itinerary is a walk in the topology: it starts at
    the city found under the start name, ends at a city with the name of
    the target, and every two consecutive cities are joined by a connection
    of the topology that is not closed; so the distance recomputed by
    [_build_result] finds a connection for every leg. *)
Theorem route_is_a_walk (M : pymath) (g : Graph) (plane : Plane) (n : nat)
    (start_city_name target_city_name : string) (sc tc : City)
    (route : list string) (time : float) (stops : list string)
    (distance count : Z) :
  cities g !! start_city_name = Some sc ->
  cities g !! target_city_name = Some tc ->
  a_star_search M g plane n start_city_name target_city_name
    = Some (Ok (Itinerary route time stops distance count)) ->
  exists path,
    route = List.map name path
    /\ hd_error path = Some sc
    /\ hd_error route = Some (name sc)
    /\ last route = Some (name tc)
    /\ Forall (flown g) (legs path)
    /\ Forall (fun leg =>
                 exists e, List.find (connects (fst leg) (snd leg)) (edges g)
                           = Some e)
         (legs path).
Proof.
  intros Hs Ht H.
  apply (itinerary_entry M g plane n _ _ sc tc (is_walk g sc)) in H
    as (cur & (Hhd & Hlast & Hlegs) & Hc & Hr); try assumption.
  - exists (e_path cur). rewrite build_result_spec in Hr.
    bind_inv Hr as d Hd. inv_ok Hr.
    split; [reflexivity|]. split; [assumption|].
    split; [destruct (e_path cur); [discriminate|by inv_ok Hhd]|].
    split; [|split; [assumption|]].
    + apply last_Some in Hlast as [l ->].
      rewrite List.map_app. cbn [List.map]. rewrite last_snoc.
      f_equal. by apply city_eqb_name.
    + eapply Forall_impl; [exact Hlegs|]. intros leg. apply flown_found.
  - intros h _. repeat split; constructor.
  - intros cur edge nc t fc g' fuel' rc' h (Hhd & Hlast & Hlegs) Hin Hnc Hcalc
      Hfin _ _.
    unfold is_walk. cbn [e_path e_city]. split; [|split].
    + destruct (e_path cur); [discriminate|assumption].
    + apply last_snoc.
    + rewrite (legs_snoc _ _ _ Hlast). apply Forall_app. split; [assumption|].
      constructor; [|constructor]. exists edge. split; [assumption|].
      split; [|by apply connects_other].
      by apply calculate_inversion in Hcalc as [Hcl _].
Qed.

Lemma route_is_a_walk_witness :
  exists path,
    ["Moscow"; "Sochi"] = List.map name path
    /\ Forall (flown Demo.create_test_graph) (legs path).
Proof.
  destruct (route_is_a_walk Demo.libm Demo.create_test_graph Demo.plane 2
              "Moscow" "Sochi" Demo.moscow Demo.sochi
              ["Moscow"; "Sochi"] (literal 21 1) ["Moscow"] 1360 0
              eq_refl eq_refl)
    as (path & Hroute & _ & _ & _ & Hlegs & _); [vm_compute; reflexivity|].
  by exists path.
Defined.

(** ** Refuels are counted on arrival *)

Lemma filter_length_le {A : Type} (f : A -> bool) (l : list A) :
  (length (List.filter f l) <= length l)%nat.
Proof.
  induction l as [|a l IH]; [reflexivity|]. cbn [List.filter].
  destruct (f a); cbn [length]; lia.
Qed.

(** X9: the refuel count of an itinerary is not negative and at most the
    number of fuel-capable cities of the route after the first, hence at
    most the number of legs: a refuel is counted only on arrival at a city
    with fuel, the target included, while the list of refuel stops is taken
    from the cities before the last. *)
Theorem refuel_count_bounds (M : pymath) (g : Graph) (plane : Plane) (n : nat)
    (start_city_name target_city_name : string) (sc tc : City)
    (route : list string) (time : float) (stops : list string)
    (distance count : Z) :
  cities g !! start_city_name = Some sc ->
  cities g !! target_city_name = Some tc ->
  a_star_search M g plane n start_city_name target_city_name
    = Some (Ok (Itinerary route time stops distance count)) ->
  exists path,
    route = List.map name path
    /\ stops = List.map name (List.filter has_fuel (removelast path))
    /\ 0 <= count <= Z.of_nat (length (List.filter has_fuel (tail path)))
    /\ count <= Z.of_nat (length route) - 1
    /\ Z.of_nat (length stops) <= Z.of_nat (length route) - 1.
Proof.
  intros Hs Ht H.
  apply (itinerary_entry M g plane n _ _ sc tc refuels_bounded) in H
    as (cur & (Hne & Hcount) & _ & Hr); try assumption.
  - exists (e_path cur). unfold _build_result in Hr.
    bind_inv Hr as d Hd. inv_ok Hr.
    split; [reflexivity|]. split; [reflexivity|]. split; [assumption|].
    rewrite !length_map.
    pose proof (filter_length_le has_fuel (tail (e_path cur))).
    pose proof (filter_length_le has_fuel (removelast (e_path cur))).
    assert (length (tail (e_path cur)) = length (e_path cur) - 1)%nat
      by (destruct (e_path cur); cbn [tail length]; lia).
    assert (length (removelast (e_path cur)) = length (e_path cur) - 1)%nat
      by (rewrite removelast_take, length_take; lia).
    assert (0 < length (e_path cur))%nat
      by (destruct (e_path cur); [done|cbn [length]; lia]).
    lia.
  - intros h _. split; [discriminate|]. cbn. lia.
  - intros cur edge nc t fc g' fuel' rc' h (Hne & Hcount) _ _ _ _ Harr _.
    unfold refuels_bounded. cbn [e_path e_refuels].
    split; [by destruct (e_path cur)|].
    assert (Htail : tail (e_path cur ++ [nc]) = tail (e_path cur) ++ [nc])
      by (by destruct (e_path cur)).
    rewrite Htail, List.filter_app, length_app. cbn [List.filter].
    unfold arrive in Harr.
    destruct (has_fuel nc); cbn [andb] in Harr.
    + destruct (_ <? _); inv_ok Harr; cbn [length]; lia.
    + inv_ok Harr. cbn [length]. lia.
Qed.

Lemma refuel_count_bounds_witness :
  a_star_search Demo.libm depot_graph Demo.plane 2 "Moscow" "Sochi"
    = Some (Ok (Itinerary ["Moscow"; "Sochi"] (literal 26 1) ["Moscow"] 1360 1))
  /\ exists path,
       ["Moscow"; "Sochi"] = List.map name path
       /\ 0 <= 1 <= Z.of_nat (length (List.filter has_fuel (tail path))).
Proof.
  assert (H : a_star_search Demo.libm depot_graph Demo.plane 2 "Moscow" "Sochi"
              = Some (Ok (Itinerary ["Moscow"; "Sochi"] (literal 26 1)
                            ["Moscow"] 1360 1)))
    by (vm_compute; reflexivity).
  split; [exact H|].
  assert (H1 : cities depot_graph !! "Moscow" = Some Demo.moscow) by reflexivity.
  assert (H2 : cities depot_graph !! "Sochi" = Some sochi_depot) by reflexivity.
  destruct (refuel_count_bounds Demo.libm depot_graph Demo.plane 2
              "Moscow" "Sochi" Demo.moscow sochi_depot
              ["Moscow"; "Sochi"] (literal 26 1) ["Moscow"] 1360 1 H1 H2 H)
    as (path & Hroute & _ & Hcount & _).
  exists path. split; [exact Hroute|exact Hcount].
Defined.

(** ** Times are numbers *)

Lemma fadd_not_nan (x y : float) :
  is_nan x = false -> is_finite y = true -> is_nan (fadd x y) = false.
Proof.
  intros Hx Hy. destruct x as [sx|sx| |sx mx ex] eqn:Ex; try discriminate.
  - by apply fadd_finite_not_nan.
  - by destruct sx, y as [[|]| | |].
  - by apply fadd_finite_not_nan.
Qed.

Lemma SFdiv_raw_not_nan (a b : Z) :
  a <> 0 -> b <> 0 -> is_nan (SFdiv prec emax (raw_of_Z a) (raw_of_Z b)) = false.
Proof.
  intros Ha Hb.
  destruct a as [|pa|pa], b as [|pb|pb]; try lia; cbn [raw_of_Z SFdiv].
  all: destruct (SFdiv_core_binary prec emax (Z.pos pa) 0 (Z.pos pb) 0)
         as [[q e'] l] eqn:Hcore.
  all: apply SFdiv_core_binary_bounds in Hcore as (Hq & _ & _).
  all: match goal with
       | |- context [binary_round_aux prec emax ?s ?q0 ?e0 ?l0] =>
           pose proof (binary_round_aux_not_nan prec emax s q0 e0 l0 Hq) as Hnan;
           by destruct (binary_round_aux prec emax s q0 e0 l0)
       end.
Qed.

Lemma round2_not_nan (x : float) : is_nan x = false -> is_nan (round2 x) = false.
Proof.
  destruct x as [s|s| |s m e]; try discriminate; try reflexivity. intros _.
  unfold round2.
  match goal with |- context [match ?n with 0 => _ | _ => _ end] =>
    destruct n eqn:Hn end; [reflexivity| |];
    apply SFdiv_raw_not_nan; lia.
Qed.

(** X10: the elapsed time [g] and the priority [f] of every frontier entry
    are never NaN, and neither is the total time of an itinerary: the time
    of a usable connection and the heuristic are finite, so the comparisons
    of the frontier and of the visited map never meet a NaN. *)
Theorem times_never_nan (M : pymath) (graph : Graph) (plane : Plane) (n : nat)
    (start_city_name target_city_name : string) (sc tc : City) :
  cities graph !! start_city_name = Some sc ->
  cities graph !! target_city_name = Some tc ->
  (forall st, reachable M graph plane sc tc st ->
              Forall times_are_numbers (open_set st))
  /\ (forall route time stops distance count,
        a_star_search M graph plane n start_city_name target_city_name
          = Some (Ok (Itinerary route time stops distance count)) ->
        is_nan time = false).
Proof.
  intros Hs Ht.
  assert (Hstart : forall h, h_score M plane sc tc = Ok h ->
            times_are_numbers
              (mkEntry (fadd pzero h) pzero sc (tank_capacity plane) [sc] 0)).
  { intros h Hh. split; [reflexivity|]. cbn [e_f].
    unfold h_score in Hh. bind_inv Hh as km Hkm.
    apply int_true_div_finite in Hh. by apply fadd_not_nan. }
  assert (Hpush : forall cur edge next_city time_needed fuel_consumed new_g
                         new_fuel new_refuel_count h,
            times_are_numbers cur -> In edge (edges graph) ->
            get_other_city edge (e_city cur) = Ok next_city ->
            calculate_edge_time_and_fuel plane edge (e_fuel cur)
              = Ok (time_needed, fuel_consumed) ->
            feqb time_needed pinf = false ->
            arrive plane cur next_city time_needed fuel_consumed
              = (new_g, new_fuel, new_refuel_count) ->
            h_score M plane next_city tc = Ok h ->
            times_are_numbers
              (mkEntry (fadd new_g h) new_g next_city new_fuel
                 (e_path cur ++ [next_city]) new_refuel_count)).
  { intros cur edge nc t fc g' fuel' rc' h [Hg _] _ _ Hcalc Hfin Harr Hh.
    apply calculate_inversion in Hcalc
      as (_ & cs & tr & k & _ & _ & _ & _ & Hdiv & _); [|assumption].
    apply int_true_div_finite in Hdiv.
    unfold h_score in Hh. bind_inv Hh as km Hkm. apply int_true_div_finite in Hh.
    assert (Hg' : is_nan g' = false).
    { unfold arrive in Harr.
      destruct (has_fuel nc && _); inv_ok Harr;
        repeat apply fadd_not_nan; done. }
    split; cbn [e_g e_f]; [assumption|by apply fadd_not_nan]. }
  split.
  - intros st. by apply frontier_invariant.
  - intros route time stops distance count H.
    apply (itinerary_entry M graph plane n _ _ sc tc times_are_numbers) in H
      as (cur & [Hg _] & _ & Hr); try assumption.
    unfold _build_result in Hr. bind_inv Hr as d Hd. inv_ok Hr.
    by apply round2_not_nan.
Qed.

Lemma times_never_nan_witness :
  Forall times_are_numbers (open_set demo_state1).
Proof.
  apply (proj1 (times_never_nan Demo.libm Demo.create_test_graph Demo.plane 2
                  "Moscow" "Sochi" Demo.moscow Demo.sochi eq_refl eq_refl)).
  exact demo_state1_reachable.
Defined.

(** ** The domain of the great-circle distance *)

Lemma math_sqrt_negative (x : float) :
  fltb x pzero = true -> math_sqrt x = Raise ValueError.
Proof. by destruct x as [[|]|[|]| |[|] m e]. Qed.

Lemma math_sqrt_raises (x : float) (e : pyexn) :
  math_sqrt x = Raise e -> e = ValueError.
Proof. destruct x as [[|]|[|]| |[|] m ex]; cbn [math_sqrt]; congruence. Qed.

(** X11: [haversine_distance] does not guard the square root of [1 - a]:
    when the platform's sines and cosines make the rounded [a] exceed 1, so
    that [1 - a] is negative, the distance raises [ValueError], and so does
    every search between the two cities, at the heuristic of line 120.
    Antipodal cities reach that case. *)
Theorem haversine_domain_error (M : pymath) (c1 c2 : City)
    (s1 p1 k1 k2 s2 p2 : float) :
  let dlat := fsub (math_radians (lat c2)) (math_radians (lat c1)) in
  let dlon := fsub (math_radians (lon c2)) (math_radians (lon c1)) in
  math_sin M (SFdiv prec emax dlat f2) = Ok s1 ->
  float_pow M s1 2 = Ok p1 ->
  math_cos M (math_radians (lat c1)) = Ok k1 ->
  math_cos M (math_radians (lat c2)) = Ok k2 ->
  math_sin M (SFdiv prec emax dlon f2) = Ok s2 ->
  float_pow M s2 2 = Ok p2 ->
  fltb (fsub f1 (fadd p1 (fmul (fmul k1 k2) p2))) pzero = true ->
  haversine_distance M c1 c2 = Raise ValueError
  /\ (forall (graph : Graph) (plane : Plane) (n : nat)
             (start_city_name target_city_name : string),
        cities graph !! start_city_name = Some c1 ->
        cities graph !! target_city_name = Some c2 ->
        a_star_search M graph plane n start_city_name target_city_name
        = Some (Raise ValueError)).
Proof.
  intros dlat dlon Hs1 Hp1 Hk1 Hk2 Hs2 Hp2 Hneg.
  assert (Hd : haversine_distance M c1 c2 = Raise ValueError).
  { unfold haversine_distance.
    change (fdiv (fsub (math_radians (lat c2)) (math_radians (lat c1))) f2)
      with (Ok (A := float) (SFdiv prec emax dlat f2)).
    change (fdiv (fsub (math_radians (lon c2)) (math_radians (lon c1))) f2)
      with (Ok (A := float) (SFdiv prec emax dlon f2)).
    cbn [mbind exc_bind]. rewrite Hs1. cbn [mbind exc_bind]. rewrite Hp1.
    cbn [mbind exc_bind]. rewrite Hk1. cbn [mbind exc_bind]. rewrite Hk2.
    cbn [mbind exc_bind]. rewrite Hs2. cbn [mbind exc_bind]. rewrite Hp2.
    cbn [mbind exc_bind]. rewrite (math_sqrt_negative _ Hneg).
    match goal with |- context [math_sqrt ?a] =>
      destruct (math_sqrt a) as [r1|e1] eqn:Hr1 end; [reflexivity|].
    apply math_sqrt_raises in Hr1. by subst e1. }
  split; [exact Hd|].
  intros graph plane n sn tn Hs Ht.
  unfold a_star_search, initial_state, h_score. by rewrite Hs, Ht, Hd.
Qed.

Lemma haversine_domain_error_witness :
  a_star_search Antipodes.libm Antipodes.graph Demo.plane 3%nat "North" "South"
  = Some (Raise ValueError).
Proof.
  assert (H1 : math_sin Antipodes.libm
                 (SFdiv prec emax
                    (fsub (math_radians (lat Antipodes.south))
                       (math_radians (lat Antipodes.north))) f2)
               = Ok (S754_finite true 5014239404989977 (-55)))
    by (vm_compute; reflexivity).
  assert (H2 : float_pow Antipodes.libm (S754_finite true 5014239404989977 (-55)) 2
               = Ok (fmul (S754_finite true 5014239404989977 (-55))
                       (S754_finite true 5014239404989977 (-55))))
    by reflexivity.
  assert (H3 : math_cos Antipodes.libm (math_radians (lat Antipodes.north))
               = Ok (S754_finite false 8919541810762874 (-53)))
    by (vm_compute; reflexivity).
  assert (H4 : math_cos Antipodes.libm (math_radians (lat Antipodes.south))
               = Ok (S754_finite false 8919541810762874 (-53)))
    by (vm_compute; reflexivity).
  assert (H5 : math_sin Antipodes.libm
                 (SFdiv prec emax
                    (fsub (math_radians (lon Antipodes.south))
                       (math_radians (lon Antipodes.north))) f2)
               = Ok (S754_finite false 4503599627370496 (-52)))
    by (vm_compute; reflexivity).
  assert (H6 : float_pow Antipodes.libm (S754_finite false 4503599627370496 (-52)) 2
               = Ok (fmul (S754_finite false 4503599627370496 (-52))
                       (S754_finite false 4503599627370496 (-52))))
    by reflexivity.
  assert (H7 : fltb (fsub f1
                  (fadd (fmul (S754_finite true 5014239404989977 (-55))
                           (S754_finite true 5014239404989977 (-55)))
                     (fmul (fmul (S754_finite false 8919541810762874 (-53))
                              (S754_finite false 8919541810762874 (-53)))
                        (fmul (S754_finite false 4503599627370496 (-52))
                           (S754_finite false 4503599627370496 (-52))))))
                  pzero = true)
    by (vm_compute; reflexivity).
  exact (proj2 (haversine_domain_error Antipodes.libm Antipodes.north Antipodes.south
                  (S754_finite true 5014239404989977 (-55))
                  (fmul (S754_finite true 5014239404989977 (-55))
                     (S754_finite true 5014239404989977 (-55)))
                  (S754_finite false 8919541810762874 (-53))
                  (S754_finite false 8919541810762874 (-53))
                  (S754_finite false 4503599627370496 (-52))
                  (fmul (S754_finite false 4503599627370496 (-52))
                     (S754_finite false 4503599627370496 (-52)))
                  H1 H2 H3 H4 H5 H6 H7)
           Antipodes.graph Demo.plane 3%nat "North" "South"
           eq_refl eq_refl).
Defined.

(** ** Times are not negative *)

Lemma fnonneg_sign (x : float) :
  fnonneg x = true <-> is_nan x = false /\ (sign_bit x = false \/ is_zero x = true).
Proof.
  destruct x as [[|]|[|]| |[|] m e]; cbn; split; try discriminate; try tauto;
    try (intros [_ [?|?]]; discriminate); intros [? _]; discriminate.
Qed.

Lemma round_aux_nonneg (mx ex : Z) (lx : location) :
  0 <= mx -> fnonneg (binary_round_aux prec emax false mx ex lx) = true.
Proof.
  intros Hm. apply fnonneg_sign.
  pose proof (binary_round_aux_not_nan prec emax false mx ex lx Hm) as Hn.
  assert (Hnan : is_nan (binary_round_aux prec emax false mx ex lx) = false)
    by (by destruct (binary_round_aux prec emax false mx ex lx)).
  split; [assumption|]. left. by apply binary_round_aux_sign.
Qed.

Lemma SFdiv_raw_nonneg (a b : Z) :
  0 < a -> 0 < b -> fnonneg (SFdiv prec emax (raw_of_Z a) (raw_of_Z b)) = true.
Proof.
  intros Ha Hb. destruct a as [|pa|pa], b as [|pb|pb]; try lia.
  cbn [raw_of_Z SFdiv].
  destruct (SFdiv_core_binary prec emax (Z.pos pa) 0 (Z.pos pb) 0)
    as [[q e'] l] eqn:Hcore.
  apply SFdiv_core_binary_bounds in Hcore as (Hq & _ & _).
  by apply round_aux_nonneg.
Qed.

Lemma int_true_div_nonneg (a b : Z) (r : float) :
  0 <= a -> 0 < b -> int_true_div a b = Ok r -> fnonneg r = true.
Proof.
  intros Ha Hb. unfold int_true_div.
  destruct b as [|pb|pb]; try lia.
  destruct a as [|pa|pa]; try lia; [intros H; by inv_ok H|].
  destruct (is_inf _); [discriminate|]. intros H. inv_ok H.
  apply (SFdiv_raw_nonneg (Z.pos pa) (Z.pos pb)); lia.
Qed.

Lemma float_of_Z_sign (z : Z) (x : float) :
  0 < z -> float_of_Z z = Ok x -> fnonneg x = true /\ sign_bit x = false.
Proof.
  intros Hz. unfold float_of_Z. destruct (is_inf _); [discriminate|].
  intros H. inv_ok H. destruct z as [|p|p]; try lia.
  cbn [binary_normalize]. unfold binary_round.
  destruct (shl_align p 0 (fexp prec emax (Z.pos (digits2_pos p) + 0))) as [m' e'].
  pose proof (round_aux_nonneg (Z.pos m') e' loc_Exact ltac:(lia)) as H.
  split; [assumption|]. apply fnonneg_sign in H as [Hn _].
  by apply binary_round_aux_sign.
Qed.

Lemma fnonneg_fadd (x y : float) :
  fnonneg x = true -> fnonneg y = true -> fnonneg (fadd x y) = true.
Proof.
  destruct x as [[|]|[|]| |[|] mx ex]; try discriminate;
    destruct y as [[|]|[|]| |[|] my ey]; try discriminate; intros _ _;
    try reflexivity.
  unfold fadd. cbn [SFadd cond_Zopp].
  match goal with |- context [binary_normalize prec emax (?a + ?b) ?e false] =>
    destruct (a + b) as [|s|s] eqn:Hs; try lia; cbn [binary_normalize] end.
  unfold binary_round.
  match goal with |- context [shl_align ?a ?b ?c] =>
    destruct (shl_align a b c) as [m' e'] end.
  apply round_aux_nonneg. lia.
Qed.

Lemma fnonneg_SFdiv (x y : float) :
  fnonneg x = true -> sign_bit y = false -> is_nan (SFdiv prec emax x y) = false ->
  fnonneg (SFdiv prec emax x y) = true.
Proof.
  destruct x as [[|]|[|]| |[|] mx ex]; try discriminate;
    destruct y as [[|]|[|]| |[|] my ey]; try discriminate; intros _ _;
    try reflexivity; try discriminate.
  intros Hn. apply fnonneg_sign. split; [assumption|]. left.
  revert Hn. cbn [SFdiv xorb].
  destruct (SFdiv_core_binary prec emax (Z.pos mx) ex (Z.pos my) ey) as [[q e'] l].
  apply binary_round_aux_sign.
Qed.

Lemma math_ceil_nonneg (x : float) (k : Z) :
  fnonneg x = true -> math_ceil x = Ok k -> 0 <= k.
Proof.
  intros Hx Hk. pose proof (fnonneg_fnum x Hx). pose proof (fden_pos x).
  apply math_ceil_spec in Hk. nia.
Qed.

Lemma math_ceil_not_nan (x : float) (k : Z) : math_ceil x = Ok k -> is_nan x = false.
Proof. by destruct x. Qed.

Lemma fmul_nan_l (x y : float) : is_nan (fmul x y) = false -> is_nan x = false.
Proof. by destruct x, y. Qed.

Lemma SFdiv_nan_r (x y : float) :
  is_nan (SFdiv prec emax x y) = false -> is_nan y = false.
Proof. by destruct x, y. Qed.

(** The time of a connection is not negative when its distance is not
    and the cruise speed is positive. *)
Lemma time_needed_nonneg (pl : Plane) (e : Edge) (F : Z) (t : float) (fc : Z) :
  0 < cruise_speed pl -> fnonneg (distance_km e) = true ->
  calculate_edge_time_and_fuel pl e F = Ok (t, fc) ->
  fnonneg t = true.
Proof.
  intros Hcs Hd Hcalc. destruct (feqb t pinf) eqn:Hfin.
  - by destruct t as [|[|]| |].
  - apply calculate_inversion in Hcalc
      as (_ & cs & tr & k & Hcs' & Htr & _ & Hk & Ht & _); [|assumption].
    apply (int_true_div_nonneg k 10); [|lia|assumption].
    apply (math_ceil_nonneg (fmul tr f10)); [|assumption].
    pose proof (math_ceil_not_nan _ _ Hk) as Hn.
    apply fnonneg_fmul; [|reflexivity|assumption].
    apply fmul_nan_l in Hn.
    unfold fdiv in Htr. destruct (is_zero _); [discriminate|]. inv_ok Htr.
    apply fnonneg_SFdiv; [assumption| |assumption].
    apply SFdiv_nan_r in Hn. unfold effective_speed in *.
    rewrite (fmul_sign _ _ Hn).
    destruct (float_of_Z_sign _ _ Hcs Hcs') as [_ ->].
    unfold wind_multipliers. by destruct (headwind e), (fairwind e).
Qed.

Lemma div_half_even_nonneg (n d : Z) : 0 <= n -> 0 < d -> 0 <= div_half_even n d.
Proof.
  intros Hn Hd. unfold div_half_even.
  pose proof (Z.div_pos n d Hn Hd).
  destruct (2 * (n mod d) ?= d); [destruct (Z.even (n / d))| |]; lia.
Qed.

Lemma fnonneg_round2 (x : float) : fnonneg x = true -> fnonneg (round2 x) = true.
Proof.
  destruct x as [s|s| |[|] m e]; try discriminate; try (intros H; exact H).
  intros _. unfold round2.
  match goal with |- context [match ?n with 0 => _ | _ => _ end] =>
    assert (Hn : 0 <= n); [|destruct n as [|p|p] eqn:En; try lia; [reflexivity|]] end.
  - destruct e as [|p|p]; cbn [signed]; try lia.
    apply div_half_even_nonneg; lia.
  - apply (SFdiv_raw_nonneg (Z.pos p) 100); lia.
Qed.

(** X12: with a positive cruise speed and non-negative distances no time is
    negative: the evaluator's time of every connection, the elapsed time of
    every frontier entry and the total time of every itinerary satisfy
    [0.0 <= t]. *)
Theorem times_are_nonnegative (M : pymath) (graph : Graph) (plane : Plane)
    (n : nat) (start_city_name target_city_name : string) (sc tc : City) :
  0 < cruise_speed plane ->
  Forall (fun e => fnonneg (distance_km e) = true) (edges graph) ->
  cities graph !! start_city_name = Some sc ->
  cities graph !! target_city_name = Some tc ->
  (forall edge current_fuel time_needed fuel_consumed,
      In edge (edges graph) ->
      calculate_edge_time_and_fuel plane edge current_fuel
        = Ok (time_needed, fuel_consumed) ->
      fnonneg time_needed = true)
  /\ (forall st, reachable M graph plane sc tc st ->
                 Forall (fun x => fnonneg (e_g x) = true) (open_set st))
  /\ (forall route time stops distance count,
        a_star_search M graph plane n start_city_name target_city_name
          = Some (Ok (Itinerary route time stops distance count)) ->
        fnonneg time = true).
Proof.
  intros Hcs Hdist Hs Ht. rewrite Forall_forall in Hdist.
  assert (Hedge : forall edge current_fuel time_needed fuel_consumed,
            In edge (edges graph) ->
            calculate_edge_time_and_fuel plane edge current_fuel
              = Ok (time_needed, fuel_consumed) ->
            fnonneg time_needed = true).
  { intros edge F t fc Hin Hcalc.
    eapply time_needed_nonneg; [exact Hcs| |exact Hcalc].
    apply Hdist. by apply list_elem_of_In. }
  assert (Hstart : forall h, h_score M plane sc tc = Ok h ->
            fnonneg (e_g (mkEntry (fadd pzero h) pzero sc (tank_capacity plane)
                            [sc] 0)) = true)
    by reflexivity.
  assert (Hpush : forall cur edge next_city time_needed fuel_consumed new_g
                         new_fuel new_refuel_count h,
            fnonneg (e_g cur) = true -> In edge (edges graph) ->
            get_other_city edge (e_city cur) = Ok next_city ->
            calculate_edge_time_and_fuel plane edge (e_fuel cur)
              = Ok (time_needed, fuel_consumed) ->
            feqb time_needed pinf = false ->
            arrive plane cur next_city time_needed fuel_consumed
              = (new_g, new_fuel, new_refuel_count) ->
            h_score M plane next_city tc = Ok h ->
            fnonneg (e_g (mkEntry (fadd new_g h) new_g next_city new_fuel
                            (e_path cur ++ [next_city]) new_refuel_count)) = true).
  { intros cur edge nc t fc g' fuel' rc' h Hg Hin _ Hcalc _ Harr _.
    cbn [e_g]. apply Hedge in Hcalc; [|assumption].
    unfold arrive in Harr.
    destruct (has_fuel nc && _); inv_ok Harr; repeat apply fnonneg_fadd; done. }
  split; [exact Hedge|]. split.
  - intros st.
    by apply (frontier_invariant M graph plane sc tc
                (fun x => fnonneg (e_g x) = true)).
  - intros route time stops distance count H.
    apply (itinerary_entry M graph plane n _ _ sc tc
             (fun x => fnonneg (e_g x) = true)) in H
      as (cur & Hg & _ & Hr); try assumption.
    unfold _build_result in Hr. bind_inv Hr as d Hd. inv_ok Hr.
    by apply fnonneg_round2.
Qed.

Lemma times_are_nonnegative_witness :
  Forall (fun x => fnonneg (e_g x) = true) (open_set demo_state1).
Proof.
  assert (H1 : 0 < cruise_speed Demo.plane) by (vm_compute; reflexivity).
  apply (proj1 (proj2 (times_are_nonnegative Demo.libm Demo.create_test_graph
                         Demo.plane 2 "Moscow" "Sochi" Demo.moscow Demo.sochi
                         H1 demo_edges_nonneg eq_refl eq_refl))).
  exact demo_state1_reachable.
Defined.

(** ** The visited map *)

Ltac cmp_cases :=
  repeat match goal with
  | |- context [Z.compare ?x ?y] => destruct (Z.compare_spec x y)
  | |- context [Pos.compare_cont Eq ?x ?y] =>
      change (Pos.compare_cont Eq x y) with (Pos.compare x y);
      destruct (Pos.compare_spec x y)
  end.

Lemma fleb_refl (a : float) : is_nan a = false -> fleb a a = true.
Proof.
  destruct a as [[|]|[|]| |[|] m e]; try discriminate; intros _; try reflexivity;
    unfold fleb, SFleb, SFcompare; cmp_cases; cbn; try reflexivity; lia.
Qed.

Lemma fleb_total (a b : float) :
  is_nan a = false -> is_nan b = false -> fleb a b = false -> fleb b a = true.
Proof.
  destruct a as [[|]|[|]| |[|] ma ea]; try discriminate;
    destruct b as [[|]|[|]| |[|] mb eb]; try discriminate; intros _ _;
    try reflexivity; try discriminate;
    unfold fleb, SFleb, SFcompare; cmp_cases; cbn;
    try reflexivity; try discriminate; lia.
Qed.

Lemma fleb_trans (a b c : float) :
  fleb a b = true -> fleb b c = true -> fleb a c = true.
Proof.
  destruct a as [[|]|[|]| |[|] ma ea];
    destruct b as [[|]|[|]| |[|] mb eb]; try discriminate;
    destruct c as [[|]|[|]| |[|] mc ec]; try discriminate;
    try reflexivity;
    unfold fleb, SFleb, SFcompare; cmp_cases; cbn;
    try reflexivity; try discriminate; intros; try discriminate; try lia.
Qed.

Lemma fleb_not_nan (a b : float) :
  fleb a b = true -> is_nan a = false /\ is_nan b = false.
Proof. by destruct a as [| | |], b as [| | |]. Qed.

Lemma relax_recorded (M : pymath) (plane : Plane) (target_city : City)
    (cur : entry) (st st' : search_state) (edge : Edge) :
  is_nan (e_g cur) = false ->
  relax M plane target_city cur st edge = Ok st' ->
  Forall (recorded_no_later (visited st)) (open_set st) ->
  Forall (recorded_no_later (visited st')) (open_set st').
Proof.
  intros Hcur H HF.
  apply relax_inversion in H
    as [->|(nc & t & fc & g' & fuel' & rc' & h & open' & _ & Hcalc & Hfin
             & Harr & Hseen & _ & Hpush & ->)]; [assumption|].
  cbn [open_set visited].
  assert (Hg' : is_nan g' = false).
  { apply calculate_inversion in Hcalc
      as (_ & cs & tr & k & _ & _ & _ & _ & Hdiv & _); [|assumption].
    apply int_true_div_finite in Hdiv. unfold arrive in Harr.
    destruct (has_fuel nc && _); inv_ok Harr; repeat apply fadd_not_nan; done. }
  eapply heappush_Forall; [exact Hpush| |].
  - eapply Forall_impl; [exact HF|]. intros x (best & Hbest & Hle).
    destruct (decide ((name nc, fuel') = (name (e_city x), e_fuel x))) as [Heq|Hne].
    + exists g'. rewrite <- Heq, lookup_insert_eq. split; [reflexivity|].
      unfold seen in Hseen. rewrite Heq, Hbest in Hseen.
      apply fleb_trans with (b := best); [|assumption].
      apply fleb_total; [|assumption|assumption].
      by apply fleb_not_nan in Hle as [? _].
    + exists best. by rewrite lookup_insert_ne.
  - exists g'. cbn [e_city e_fuel e_g]. rewrite lookup_insert_eq.
    split; [reflexivity|by apply fleb_refl].
Qed.

Lemma relax_all_recorded (M : pymath) (plane : Plane) (target_city : City)
    (cur : entry) (es : list Edge) :
  is_nan (e_g cur) = false ->
  forall st st',
  relax_all M plane target_city cur st es = Ok st' ->
  Forall (recorded_no_later (visited st)) (open_set st) ->
  Forall (recorded_no_later (visited st')) (open_set st').
Proof.
  intros Hcur. induction es as [|e es IH]; intros st st' H HF; cbn [relax_all] in H.
  - by inv_ok H.
  - bind_inv H as st1 H1. eapply IH; [exact H|].
    eapply relax_recorded; eassumption.
Qed.

Lemma relax_visited (M : pymath) (plane : Plane) (target_city : City)
    (cur : entry) (st st' : search_state) (edge : Edge) :
  is_nan (e_g cur) = false ->
  map_Forall (fun _ v => is_nan v = false) (visited st) ->
  relax M plane target_city cur st edge = Ok st' ->
  map_Forall (fun _ v => is_nan v = false) (visited st')
  /\ (forall key best,
        visited st !! key = Some best ->
        exists best', visited st' !! key = Some best' /\ fleb best' best = true).
Proof.
  intros Hcur Hmap H.
  assert (Hsame : forall key best,
            visited st !! key = Some best ->
            exists best', visited st !! key = Some best' /\ fleb best' best = true).
  { intros key best Hk. exists best. split; [assumption|].
    apply fleb_refl. exact (Hmap key best Hk). }
  apply relax_inversion in H
    as [->|(nc & t & fc & g' & fuel' & rc' & h & open' & _ & Hcalc & Hfin
             & Harr & Hseen & _ & _ & ->)]; [by split|].
  cbn [visited].
  assert (Hg' : is_nan g' = false).
  { apply calculate_inversion in Hcalc
      as (_ & cs & tr & k & _ & _ & _ & _ & Hdiv & _); [|assumption].
    apply int_true_div_finite in Hdiv. unfold arrive in Harr.
    destruct (has_fuel nc && _); inv_ok Harr; repeat apply fadd_not_nan; done. }
  split; [by apply map_Forall_insert_2|].
  intros key best Hk.
  destruct (decide ((name nc, fuel') = key)) as [<-|Hne].
  - exists g'. rewrite lookup_insert_eq. split; [reflexivity|].
    unfold seen in Hseen. rewrite Hk in Hseen.
    apply fleb_total; [exact (Hmap _ _ Hk)|assumption|assumption].
  - rewrite lookup_insert_ne by assumption. by apply Hsame.
Qed.

Lemma relax_all_visited (M : pymath) (plane : Plane) (target_city : City)
    (cur : entry) (es : list Edge) :
  is_nan (e_g cur) = false ->
  forall st st',
  map_Forall (fun _ v => is_nan v = false) (visited st) ->
  relax_all M plane target_city cur st es = Ok st' ->
  forall key best,
    visited st !! key = Some best ->
    exists best', visited st' !! key = Some best' /\ fleb best' best = true.
Proof.
  intros Hcur. induction es as [|e es IH]; intros st st' Hmap H key best Hk;
    cbn [relax_all] in H.
  - inv_ok H. exists best. split; [assumption|].
    apply fleb_refl. exact (Hmap key best Hk).
  - bind_inv H as st1 H1.
    destruct (relax_visited _ _ _ _ _ _ _ Hcur Hmap H1) as [Hmap1 Hmono].
    destruct (Hmono key best Hk) as (b1 & Hb1 & Hle1).
    destruct (IH st1 st' Hmap1 H key b1 Hb1) as (b2 & Hb2 & Hle2).
    exists b2. split; [assumption|]. by apply fleb_trans with (b := b1).
Qed.

Lemma relax_all_numbers (M : pymath) (plane : Plane) (target_city : City)
    (cur : entry) (es : list Edge) :
  is_nan (e_g cur) = false ->
  forall st st',
  map_Forall (fun _ v => is_nan v = false) (visited st) ->
  relax_all M plane target_city cur st es = Ok st' ->
  map_Forall (fun _ v => is_nan v = false) (visited st').
Proof.
  intros Hcur. induction es as [|e es IH]; intros st st' Hmap H;
    cbn [relax_all] in H.
  - by inv_ok H.
  - bind_inv H as st1 H1. eapply IH; [|exact H].
    by destruct (relax_visited _ _ _ _ _ _ _ Hcur Hmap H1).
Qed.

Lemma visited_invariant (M : pymath) (graph : Graph) (plane : Plane)
    (start_city target_city : City) (st : search_state) :
  reachable M graph plane start_city target_city st ->
  Forall (recorded_no_later (visited st)) (open_set st)
  /\ map_Forall (fun _ v => is_nan v = false) (visited st).
Proof.
  induction 1 as [st Hinit|st st' Hreach [IH1 IH2] Hstep].
  - unfold initial_state in Hinit. bind_inv Hinit as h Hh. inv_ok Hinit.
    cbn [open_set visited]. split.
    + constructor; [|constructor].
      exists pzero. cbn [e_city e_fuel e_g]. by rewrite lookup_singleton_eq.
    + by apply map_Forall_singleton.
  - unfold a_star_step in Hstep.
    destruct (heapq.heappop (open_set st)) as [[[cur rest]|]|] eqn:Hpop;
      cbn in Hstep; try discriminate.
    apply heappop_Forall with (P := recorded_no_later (visited st)) in Hpop
      as [Hcur Hrest]; [|assumption].
    destruct (city_eqb (e_city cur) target_city);
      [bind_inv Hstep as r Hr; discriminate|].
    bind_inv Hstep as st1 H1. inv_ok Hstep.
    assert (Hg : is_nan (e_g cur) = false).
    { destruct Hcur as (best & _ & Hle). by apply fleb_not_nan in Hle as [_ ?]. }
    split.
    + eapply relax_all_recorded in H1; [exact H1|exact Hg|exact Hrest].
    + eapply relax_all_numbers in H1; [exact H1|exact Hg|exact IH2].
Qed.

(** X13: every entry waiting in the frontier has its state (city name and
    fuel) recorded in the visited map, with a time that is not later than
    the entry's own elapsed time; and an iteration of the loop never
    removes a state from the visited map nor makes its recorded time
    later. *)
Theorem frontier_is_recorded (M : pymath) (graph : Graph) (plane : Plane)
    (start_city target_city : City) (st : search_state) :
  reachable M graph plane start_city target_city st ->
  Forall (recorded_no_later (visited st)) (open_set st)
  /\ (forall st' key best,
        a_star_step M graph plane target_city st = Ok (inl st') ->
        visited st !! key = Some best ->
        exists best', visited st' !! key = Some best' /\ fleb best' best = true).
Proof.
  intros Hreach.
  destruct (visited_invariant _ _ _ _ _ _ Hreach) as [Hrec Hmap].
  split; [exact Hrec|].
  intros st' key best Hstep Hk. unfold a_star_step in Hstep.
  destruct (heapq.heappop (open_set st)) as [[[cur rest]|]|] eqn:Hpop;
    cbn in Hstep; try discriminate.
  apply heappop_Forall with (P := recorded_no_later (visited st)) in Hpop
    as [Hcur Hrest]; [|assumption].
  destruct (city_eqb (e_city cur) target_city);
    [bind_inv Hstep as r Hr; discriminate|].
  bind_inv Hstep as st1 H1. inv_ok Hstep.
  assert (Hg : is_nan (e_g cur) = false).
  { destruct Hcur as (b & _ & Hle). by apply fleb_not_nan in Hle as [_ ?]. }
  exact (relax_all_visited M plane target_city cur _ Hg
           (mkState rest (visited st)) st' Hmap H1 key best Hk).
Qed.

Lemma frontier_is_recorded_witness :
  Forall (recorded_no_later (visited demo_state1)) (open_set demo_state1).
Proof.
  exact (proj1 (frontier_is_recorded Demo.libm Demo.create_test_graph Demo.plane
                  Demo.moscow Demo.sochi demo_state1 demo_state1_reachable)).
Defined.

(** ** A departure city without usable connections *)

Lemma relax_all_closed (M : pymath) (plane : Plane) (target_city : City)
    (cur : entry) (st : search_state) (es : list Edge) :
  Forall (fun e => touches (e_city cur) e = true /\ closed e = true) es ->
  relax_all M plane target_city cur st es = Ok st.
Proof.
  induction 1 as [|e es [Htouch Hclosed] _ IH]; cbn [relax_all]; [reflexivity|].
  assert (Hother : exists nc, get_other_city e (e_city cur) = Ok nc).
  { unfold get_other_city. unfold touches in Htouch.
    rewrite (city_eqb_sym (e_city cur) (city1 e)),
      (city_eqb_sym (e_city cur) (city2 e)).
    destruct (city_eqb (city1 e) (e_city cur)); [by eexists|].
    destruct (city_eqb (city2 e) (e_city cur)); [by eexists|discriminate]. }
  destruct Hother as [nc Hnc]. unfold relax at 1. rewrite Hnc.
  cbn [mbind exc_bind]. rewrite (closed_is_sentinel _ _ _ Hclosed).
  cbn [mbind exc_bind feqb]. exact IH.
Qed.

(** X14: when every connection that touches the departure city is closed
    (or there is none), a search towards another city answers "No path
    found" at the second iteration of the loop, however the rest of the
    topology is connected. *)
Theorem closed_departures_no_path (M : pymath) (graph : Graph) (plane : Plane)
    (n : nat) (start_city_name target_city_name : string) (sc tc : City)
    (h : float) :
  cities graph !! start_city_name = Some sc ->
  cities graph !! target_city_name = Some tc ->
  city_eqb sc tc = false ->
  h_score M plane sc tc = Ok h ->
  (forall e, In e (edges graph) -> touches sc e = true -> closed e = true) ->
  a_star_search M graph plane (S (S n)) start_city_name target_city_name
  = Some (Ok (Error "No path found")).
Proof.
  intros Hs Ht Hne Hh Hclosed.
  unfold a_star_search, initial_state. rewrite Hs, Ht, Hh.
  cbn [mbind exc_bind a_star_loop].
  unfold a_star_step at 1.
  cbn [open_set heapq.heappop last removelast mbind exc_bind e_city visited].
  rewrite Hne, relax_all_closed; [reflexivity|].
  cbn [e_city]. apply Forall_forall. intros e He.
  unfold get_edges_from_city in He. apply list_elem_of_In, filter_In in He as [Hin Htouch].
  split; [exact Htouch|]. by apply Hclosed.
Qed.

Lemma closed_departures_no_path_witness :
  a_star_search Demo.libm moscow_closed Demo.plane 2 "Moscow" "Sochi"
  = Some (Ok (Error "No path found")).
Proof.
  assert (H1 : city_eqb Demo.moscow Demo.sochi = false) by reflexivity.
  assert (H2 : h_score Demo.libm Demo.plane Demo.moscow Demo.sochi
               = Ok (ok_or pzero (h_score Demo.libm Demo.plane Demo.moscow Demo.sochi)))
    by (vm_compute; reflexivity).
  assert (H3 : forall e, In e (edges moscow_closed) ->
                 touches Demo.moscow e = true -> closed e = true).
  { intros e He. cbn in He.
    destruct He as [<-|[<-|[<-|[<-|[<-|[<-|[]]]]]]]; vm_compute; congruence. }
  exact (closed_departures_no_path Demo.libm moscow_closed Demo.plane 0
           "Moscow" "Sochi" Demo.moscow Demo.sochi _ eq_refl eq_refl H1 H2 H3).
Defined.

(** ** Fuel at the cities that sell it *)

(** X15: every frontier entry that stands at a city with fuel holds at
    least a full tank, because the refuel on arrival is mandatory; with
    non-negative distances and consumption it holds exactly a full tank. *)
Theorem full_tank_at_fuel_cities (M : pymath) (graph : Graph) (plane : Plane)
    (start_city target_city : City) (st : search_state) :
  reachable M graph plane start_city target_city st ->
  Forall (fun x => has_fuel (e_city x) = true -> tank_capacity plane <= e_fuel x)
    (open_set st)
  /\ (Forall (fun e => fnonneg (distance_km e) = true) (edges graph) ->
      fnonneg (fuel_consumption plane) = true ->
      Forall (fun x => has_fuel (e_city x) = true -> e_fuel x = tank_capacity plane)
        (open_set st)).
Proof.
  intros Hreach. split.
  - eapply frontier_invariant; [| |exact Hreach].
    + intros h _ _. cbn [e_fuel]. lia.
    + intros cur edge nc t fc g' fuel' rc' h _ _ _ _ _ Harr _ Hf.
      cbn [e_city e_fuel] in *. unfold arrive in Harr. rewrite Hf in Harr.
      cbn [andb] in Harr.
      destruct (e_fuel cur - fc <? tank_capacity plane) eqn:Hlt; inv_ok Harr; lia.
  - intros Hdist Hcons. rewrite Forall_forall in Hdist.
    assert (H : Forall (fun x => e_fuel x <= tank_capacity plane
                          /\ (has_fuel (e_city x) = true ->
                              e_fuel x = tank_capacity plane)) (open_set st)).
    { eapply frontier_invariant; [| |exact Hreach].
      + intros h _. cbn [e_fuel]. split; [lia|reflexivity].
      + intros cur edge nc t fc g' fuel' rc' h [Hcur _] Hin _ Hcalc Hfin Harr _.
        cbn [e_city e_fuel] in *. unfold arrive in Harr.
        assert (0 <= fc).
        { eapply fuel_consumed_nonneg; [|exact Hcons|exact Hcalc].
          apply Hdist. by apply list_elem_of_In. }
        destruct (has_fuel nc) eqn:Hf; cbn [andb] in Harr.
        * destruct (e_fuel cur - fc <? tank_capacity plane) eqn:Hlt;
            inv_ok Harr; split; intros; lia.
        * inv_ok Harr. split; [lia|discriminate]. }
    eapply Forall_impl; [exact H|]. by intros x [_ Hx].
Qed.

Lemma full_tank_at_fuel_cities_witness :
  Forall (fun x => has_fuel (e_city x) = true -> e_fuel x = tank_capacity Demo.plane)
    (open_set demo_state1).
Proof.
  assert (H1 : fnonneg (fuel_consumption Demo.plane) = true) by reflexivity.
  exact (proj2 (full_tank_at_fuel_cities Demo.libm Demo.create_test_graph
                  Demo.plane Demo.moscow Demo.sochi demo_state1
                  demo_state1_reachable) demo_edges_nonneg H1).
Defined.
